(** * hook-sql: the query compiler of [hook_sql.hook] and [hook_sql.core]

    A shallow embedding of the two modules of the package:

    - [hook.py] builds sqlglot expressions from text templates that it parses
      in the [fabric] dialect: the hook expressions ([build_hooks]), the hook
      projection ([build_hook_cte]), the validity window
      ([build_validity_cte]) and the assembled query ([build_query]);
    - [core.py] walks a manifest and assembles, per table, three artifact
      descriptors ([build_queries]).

    The expression trees are the ones sqlglot returns for the templates when
    the spliced names are plain identifiers and the spliced literals hold no
    quote ([is_identifier], [quote_free]); the templates themselves are quoted
    next to each definition.  The SQL the trees stand for is given a meaning
    by [Fabric.eval], the semantics of the dialect the templates are written
    in, restricted to the constructs the package emits. *)

From Stdlib Require Import String Ascii List ZArith Bool Arith Lia Permutation Sorted DecimalString.
#[local] Set Warnings "-register-all".
Import ListNotations.
Open Scope string_scope.

(** ** Python values, exceptions and dictionaries *)

Module Py.

Inductive exn : Type :=
| AttributeError (module_name attr : string)
| KeyError (key : string)
| TypeError (msg : string)
| ValueError (msg : string).

Inductive result (A : Type) : Type :=
| Ok (a : A)
| Raise (e : exn).
Arguments Ok {A} a.
Arguments Raise {A} e.

Definition bind {A B} (m : result A) (k : A -> result B) : result B :=
  match m with
  | Ok a => k a
  | Raise e => Raise e
  end.

(** The values a manifest entry may hold under a key that the compiler
    inspects with [is]. *)
Inductive pyval : Type :=
| PyNone
| PyBool (b : bool)
| PyInt (z : Z)
| PyStr (s : string).

(** [v is True]: identity with the singleton [True]. *)
Definition is_True (v : pyval) : bool :=
  match v with
  | PyBool true => true
  | _ => false
  end.

(** Truth value of a [str | None] argument, as [if s and t:] tests it. *)
Definition truthy (s : option string) : bool :=
  match s with
  | None => false
  | Some EmptyString => false
  | Some _ => true
  end.

(** [d.get(key)] on an entry that may lack the key. *)
Definition get (v : option pyval) : pyval :=
  match v with
  | Some x => x
  | None => PyNone
  end.

(** [d.get(key, default)]. *)
Definition get_default {A} (v : option A) (default : A) : A :=
  match v with
  | Some x => x
  | None => default
  end.

(** [d[key]]. *)
Definition getitem {A} (key : string) (v : option A) : result A :=
  match v with
  | Some x => Ok x
  | None => Raise (KeyError key)
  end.

(** Dictionaries keep insertion order; [d[k] = v] overwrites in place. *)
Fixpoint dict_set {A} (k : string) (v : A) (d : list (string * A)) : list (string * A) :=
  match d with
  | [] => [(k, v)]
  | (k', v') :: d' =>
      if String.eqb k k' then (k, v) :: d' else (k', v') :: dict_set k v d'
  end.

Fixpoint dict_get {A} (k : string) (d : list (string * A)) : option A :=
  match d with
  | [] => None
  | (k', v) :: d' => if String.eqb k k' then Some v else dict_get k d'
  end.

Definition keys {A} (d : list (string * A)) : list string := map fst d.

End Py.

Import Py.

Notation "x <- m ;; k" := (Py.bind m (fun x => k))
  (at level 61, m at next level, right associativity).

(** ** sqlglot expressions *)

Module Exp.

Inductive datatype : Type :=
| DATETIME (precision : nat).

Inductive winfn : Type := LAG | LEAD | ROW_NUMBER.

(** Scalar expressions, named after the sqlglot node classes. *)
Inductive exp : Type :=
| Column (name : string)
| Star
| Null
| LitStr (s : string)
| LitNum (n : Z)
| Not (e : exp)
| Is (a b : exp)
| Add (a b : exp)
| EQ (a b : exp)
| Between (e low high : exp)
| Case (ifs : list (exp * exp)) (default : option exp)
| Alias (e : exp) (alias : string)
| Coalesce (args : list exp)
| Least (args : list exp)
| Cast (e : exp) (to : datatype)
| ConcatWs (args : list exp) (coalesce : bool)
| Window (fn : winfn) (args : list exp) (partition_by : list exp) (order : list exp).

(** [exp.Table(this=..., db=..., catalog=...)]. *)
Record Table : Type := mkTable {
  this : string;
  db : option string;
  catalog : option string
}.

(** [exp.select(...).from_(...)], with an optional [WHERE]. *)
Record Select : Type := mkSelect {
  expressions : list exp;
  from_ : Table;
  where_ : option exp
}.

(** A query: a bare [SELECT], or one under a [WITH] of named stages. *)
Inductive Query : Type :=
| Plain (s : Select)
| With (ctes : list (string * Select)) (body : Select).

(** The [SELECT] a query ends with, and its named stages. *)
Definition final_select (q : Query) : Select :=
  match q with
  | Plain s => s
  | With _ body => body
  end.


Definition alias_of (e : exp) : option string :=
  match e with
  | Alias _ a => Some a
  | _ => None
  end.

End Exp.

Import Exp.

(** ** The generator and the parser of sqlglot

    [sql] is [Expression.sql()] with its defaults: the default dialect, one
    line, no identifier quoting.  Literals are written between quotes as they
    are (they hold no quote here). *)

Module Generator.

Definition csv (parts : list string) : string := String.concat ", " parts.

Definition is_string (e : exp) : bool :=
  match e with
  | LitStr _ => true
  | _ => false
  end.

Definition winfn_name (fn : winfn) : string :=
  match fn with
  | LAG => "LAG"
  | LEAD => "LEAD"
  | ROW_NUMBER => "ROW_NUMBER"
  end.

Definition datatype_sql (t : datatype) : string :=
  match t with
  | DATETIME p => "DATETIME(" ++ NilZero.string_of_int (Z.to_int (Z.of_nat p)) ++ ")"
  end.

(** The default dialect does not treat NULL as the empty string in
    [CONCAT_WS]: where the call carries the [coalesce] flag, every argument
    after the separator that is not a string literal is written as
    [COALESCE(arg, '')]. *)
Fixpoint sql (e : exp) : string :=
  match e with
  | Column n => n
  | Star => "*"
  | Null => "NULL"
  | LitStr s => "'" ++ s ++ "'"
  | LitNum n => NilZero.string_of_int (Z.to_int n)
  | Not a => "NOT " ++ sql a
  | Is a b => sql a ++ " IS " ++ sql b
  | Add a b => sql a ++ " + " ++ sql b
  | EQ a b => sql a ++ " = " ++ sql b
  | Between a l h => sql a ++ " BETWEEN " ++ sql l ++ " AND " ++ sql h
  | Case ifs d =>
      "CASE"
      ++ (fix whens (l : list (exp * exp)) : string :=
            match l with
            | [] => ""
            | (c, t) :: l' => " WHEN " ++ sql c ++ " THEN " ++ sql t ++ whens l'
            end) ifs
      ++ match d with
         | Some x => " ELSE " ++ sql x
         | None => ""
         end
      ++ " END"
  | Alias a n => sql a ++ " AS " ++ n
  | Coalesce args => "COALESCE(" ++ csv (map sql args) ++ ")"
  | Least args => "LEAST(" ++ csv (map sql args) ++ ")"
  | Cast a t => "CAST(" ++ sql a ++ " AS " ++ datatype_sql t ++ ")"
  | ConcatWs args c =>
      "CONCAT_WS("
      ++ csv match args with
             | [] => []
             | sep :: rest =>
                 sql sep
                 :: map (fun a =>
                           if c && negb (is_string a)
                           then "COALESCE(" ++ sql a ++ ", '')"
                           else sql a) rest
             end
      ++ ")"
  | Window fn args pb ob =>
      winfn_name fn ++ "(" ++ csv (map sql args) ++ ") OVER ("
      ++ match pb with
         | [] => ""
         | _ => "PARTITION BY " ++ csv (map sql pb) ++ " "
         end
      ++ "ORDER BY " ++ csv (map sql ob) ++ ")"
  end.

Definition table_sql (t : Table) : string :=
  match catalog t with Some c => c ++ "." | None => "" end
  ++ match db t with Some d => d ++ "." | None => "" end
  ++ this t.

Definition select_sql (s : Select) : string :=
  "SELECT " ++ csv (map sql (expressions s)) ++ " FROM " ++ table_sql (from_ s)
  ++ match where_ s with
     | Some w => " WHERE " ++ sql w
     | None => ""
     end.

Definition query_sql (q : Query) : string :=
  match q with
  | Plain s => select_sql s
  | With ctes body =>
      "WITH " ++ csv (map (fun c => fst c ++ " AS (" ++ select_sql (snd c) ++ ")") ctes)
      ++ " " ++ select_sql body
  end.

(** [parse_one(e.sql(), dialect="fabric")]: the tree read back from the text
    [sql] writes.  Only [CONCAT_WS] changes: the [COALESCE] calls the
    generator wrote are now arguments of their own, and the call read in the
    [fabric] dialect carries the flag again. *)
Definition wrap_with_coalesce (e : exp) : exp :=
  if is_string e then e else Coalesce [e; LitStr ""].

Fixpoint reparse (e : exp) : exp :=
  match e with
  | Not a => Not (reparse a)
  | Is a b => Is (reparse a) (reparse b)
  | Add a b => Add (reparse a) (reparse b)
  | EQ a b => EQ (reparse a) (reparse b)
  | Between a l h => Between (reparse a) (reparse l) (reparse h)
  | Case ifs d =>
      Case ((fix whens (l : list (exp * exp)) : list (exp * exp) :=
               match l with
               | [] => []
               | (c, t) :: l' => (reparse c, reparse t) :: whens l'
               end) ifs)
           match d with
           | Some x => Some (reparse x)
           | None => None
           end
  | Alias a n => Alias (reparse a) n
  | Coalesce args => Coalesce (map reparse args)
  | Least args => Least (map reparse args)
  | Cast a t => Cast (reparse a) t
  | ConcatWs args c =>
      ConcatWs match map reparse args with
               | [] => []
               | sep :: rest => sep :: (if c then map wrap_with_coalesce rest else rest)
               end
               c
  | Window fn args pb ob => Window fn (map reparse args) (map reparse pb) (map reparse ob)
  | Column _ | Star | Null | LitStr _ | LitNum _ => e
  end.

Definition reparse_select (s : Select) : Select :=
  mkSelect (map reparse (expressions s)) (from_ s)
           match where_ s with
           | Some w => Some (reparse w)
           | None => None
           end.

(** Texts are compared up to layout: [pretty=True] only adds spaces and
    line breaks. *)
Definition is_layout (c : ascii) : bool :=
  let n := nat_of_ascii c in (n =? 32)%nat || (n =? 10)%nat || (n =? 9)%nat || (n =? 13)%nat.

Fixpoint squeeze (s : string) : string :=
  match s with
  | EmptyString => EmptyString
  | String c s' => if is_layout c then squeeze s' else String c (squeeze s')
  end.

End Generator.

Import Generator.

(** ** Well-formed splices

    A name spliced into a template is read back as one column when it is a
    plain identifier (letters, digits and underscores, not starting with a
    digit, and not a word of the grammar); a text spliced between quotes is
    read back as that literal when it holds no quote. *)

Definition is_identifier_start (c : ascii) : bool :=
  let n := nat_of_ascii c in
  ((65 <=? n)%nat && (n <=? 90)%nat) || ((97 <=? n)%nat && (n <=? 122)%nat) || (n =? 95)%nat.

Definition is_identifier_char (c : ascii) : bool :=
  let n := nat_of_ascii c in
  is_identifier_start c || ((48 <=? n)%nat && (n <=? 57)%nat).

Definition upper (c : ascii) : ascii :=
  let n := nat_of_ascii c in
  if ((97 <=? n)%nat && (n <=? 122)%nat)%bool then ascii_of_nat (n - 32) else c.

Fixpoint uppercase (s : string) : string :=
  match s with
  | EmptyString => EmptyString
  | String c s' => String (upper c) (uppercase s')
  end.

(** Words the parser reads as part of the grammar, in any letter case. *)
Definition keywords : list string :=
  ["ALL"; "AND"; "AS"; "ASC"; "BETWEEN"; "BY"; "CASE"; "CAST"; "DESC"; "DISTINCT";
   "ELSE"; "END"; "EXISTS"; "FALSE"; "FROM"; "GROUP"; "HAVING"; "IN"; "IS"; "JOIN";
   "LIKE"; "LIMIT"; "NOT"; "NULL"; "ON"; "OR"; "ORDER"; "OVER"; "PARTITION"; "SELECT";
   "THEN"; "TRUE"; "UNION"; "WHEN"; "WHERE"; "WITH"].

Definition is_identifier (s : string) : bool :=
  match s with
  | EmptyString => false
  | String c s' =>
      is_identifier_start c
      && forallb is_identifier_char (list_ascii_of_string s')
      && negb (existsb (String.eqb (uppercase s)) keywords)
  end.

Definition quote_free (s : string) : bool :=
  forallb (fun c => negb (nat_of_ascii c =? 39)%nat) (list_ascii_of_string s).

(** ** hook.py *)

Module Hook.

(** A hook dictionary: its ['name'], ['keyset'] and ['expression'] keys
    (and the ['concept'] label the builders never read). *)
Record HookSpec : Type := mkHook {
  name : string;
  concept : string;
  keyset : string;
  expression : string
}.

Definition wf_hook (h : HookSpec) : bool :=
  is_identifier (name h) && quote_free (keyset h) && is_identifier (expression h).

(** [CASE WHEN {expression} IS NOT NULL THEN '{keyset}|' + {expression} END AS {name}] *)
Definition hook_expression (hook : HookSpec) : exp :=
  Alias
    (Case [(Not (Is (Column (expression hook)) Null),
            Add (LitStr (keyset hook ++ "|")) (Column (expression hook)))]
          None)
    (name hook).

Definition build_hooks (hooks : list HookSpec) : list exp :=
  map hook_expression hooks.

(** [exp.select( *hook_expressions, exp.Star()).from_(source_table)] *)
Definition build_hook_cte (source_table : Table) (hooks : list HookSpec) : Select :=
  let hook_expressions := build_hooks hooks in
  mkSelect (hook_expressions ++ [Star]) source_table None.

(** [PARTITION BY {grain_columns} ORDER BY _record__loaded_at] *)
Definition over (fn : winfn) (args : list exp) (grain : list string) : exp :=
  Window fn args (map Column grain) [Column "_record__loaded_at"].

Definition epoch_literal : string := "1970-01-01 00:00:00".
Definition infinite_literal : string := "9999-12-31 23:59:59.999999".

(** [COALESCE(LAG(_record__loaded_at) OVER (...),
             CAST('1970-01-01 00:00:00' AS DATETIME(6))) AS _record__valid_from] *)
Definition record_valid_from (grain : list string) : exp :=
  Alias
    (Coalesce [over LAG [Column "_record__loaded_at"] grain;
               Cast (LitStr epoch_literal) (DATETIME 6)])
    "_record__valid_from".

(** [COALESCE(LEAST(_record__hash_removed_at, LEAD(_record__loaded_at) OVER (...)),
             CAST('9999-12-31 23:59:59.999999' AS DATETIME(6))) AS _record__valid_to] *)
Definition record_valid_to (grain : list string) : exp :=
  Alias
    (Coalesce [Least [Column "_record__hash_removed_at";
                      over LEAD [Column "_record__loaded_at"] grain];
               Cast (LitStr infinite_literal) (DATETIME 6)])
    "_record__valid_to".

(** [ROW_NUMBER() OVER (...) AS _record__version] *)
Definition record_version (grain : list string) : exp :=
  Alias (over ROW_NUMBER [] grain) "_record__version".

(** [CASE WHEN LEAD(_record__loaded_at) OVER (...) IS NULL THEN 1 ELSE 0 END
     AS _record__is_current] *)
Definition record_is_current (grain : list string) : exp :=
  Alias
    (Case [(Is (over LEAD [Column "_record__loaded_at"] grain) Null, LitNum 1)]
          (Some (LitNum 0)))
    "_record__is_current".

(** [COALESCE(LEAST(_record__hash_removed_at, LEAD(_record__loaded_at) OVER (...)),
             _record__loaded_at) AS _record__updated_at] *)
Definition record_updated_at (grain : list string) : exp :=
  Alias
    (Coalesce [Least [Column "_record__hash_removed_at";
                      over LEAD [Column "_record__loaded_at"] grain];
               Column "_record__loaded_at"])
    "_record__updated_at".

(** [CONCAT_WS('|', {', '.join(grain)}, _record__loaded_at) AS _record__uid];
    read in the [fabric] dialect the call carries the flag that makes the
    default generator wrap each argument in [COALESCE(..., '')]. *)
Definition record_uid (grain : list string) : exp :=
  Alias
    (ConcatWs (LitStr "|" :: map Column grain ++ [Column "_record__loaded_at"]) true)
    "_record__uid".

Definition build_validity_cte (from_table : Table) (grain : list string) : Select :=
  mkSelect
    [Star;
     record_valid_from grain;
     record_valid_to grain;
     record_version grain;
     record_is_current grain;
     record_updated_at grain;
     record_uid grain]
    from_table
    None.

(** [build_query]: both stages are written out with [sql()] and the whole
    text is parsed again, so the stages of the result are the trees read back
    from that text.

    [WITH cte__hook AS ({cte__hook.sql()}), cte__validity AS ({cte__validity.sql()})
     SELECT * FROM cte__validity WHERE {where.sql()}] *)
Definition build_query (source_table : Table) (hooks : list HookSpec) (grain : list string)
    (time_column : string) (start_ts end_ts : option string) : Query :=
  let cte__hook := build_hook_cte source_table hooks in
  let cte__validity := build_validity_cte (mkTable "cte__hook" None None) grain in
  let where0 := EQ (LitNum 1) (LitNum 1) in
  let where1 :=
    if truthy start_ts && truthy end_ts
    then Between (Column time_column)
                 (Cast (LitStr (get_default start_ts "")) (DATETIME 6))
                 (Cast (LitStr (get_default end_ts "")) (DATETIME 6))
    else where0 in
  With [("cte__hook", reparse_select cte__hook);
        ("cte__validity", reparse_select cte__validity)]
       (mkSelect [Star] (mkTable "cte__validity" None None) (Some (reparse where1))).

(** The two stages as [build_query] holds them. *)
Definition hook_stage (source_table : Table) (hooks : list HookSpec) : Select :=
  reparse_select (build_hook_cte source_table hooks).

Definition validity_stage (grain : list string) : Select :=
  reparse_select (build_validity_cte (mkTable "cte__hook" None None) grain).

(** A grain the window templates read back as written: at least one column,
    each a plain identifier. *)
Definition wf_grain (grain : list string) : bool :=
  match grain with
  | [] => false
  | _ => forallb is_identifier grain
  end.

End Hook.

(** ** core.py *)

Module Core.

Import Hook.

(** A manifest entry.  Every key may be missing from the dictionary; the
    value under ['managed'] is compared with [is], so it is kept as a Python
    value. *)
Record TableSpec : Type := mkSpec {
  database : option string;
  schema : option string;
  table : option string;
  grain : option (list string);
  columns : option (list (string * string));
  hooks : option (list HookSpec);
  invalidate_hard_deletes : option pyval;
  managed : option pyval
}.

Definition Manifest : Type := list (string * TableSpec).

(** A descriptor's query: rendered text when [as_sql], else the expression. *)
Inductive rendered : Type :=
| Text (s : string)
| Expr (q : Query).

Record ArtifactDescriptor : Type := mkArtifact {
  target_database : string;
  target_schema : string;
  target_table : string;
  query : option rendered
}.

Record CompiledArtifactSet : Type := mkArtifacts {
  hook : ArtifactDescriptor;
  uss_bridge : ArtifactDescriptor;
  uss_peripheral : ArtifactDescriptor
}.

(** The keyword arguments of [build_queries] other than the manifest and
    the export path (no export is modelled: [export_path] is [None]). *)
Record Options : Type := mkOptions {
  hook_target_db : string;
  hook_target_schema : string;
  uss_target_db : string;
  uss_target_schema : string;
  as_sql : bool;
  dialect : option string;
  identify : bool
}.

Definition default_options : Options :=
  mkOptions "silver" "hook" "gold" "uss" true None true.

(** The names bound in the module [hook]: its two imports and its four
    functions. *)
Inductive hook_attr : Type :=
| attr_exp
| attr_parse_one
| attr_build_hooks
| attr_build_hook_cte
| attr_build_validity_cte
| attr_build_query.

Definition hook_namespace : list (string * hook_attr) :=
  [("exp", attr_exp);
   ("parse_one", attr_parse_one);
   ("build_hooks", attr_build_hooks);
   ("build_hook_cte", attr_build_hook_cte);
   ("build_validity_cte", attr_build_validity_cte);
   ("build_query", attr_build_query)].

(** [hook.<attr>] *)
Definition getattr_hook (attr : string) : result hook_attr :=
  match dict_get attr hook_namespace with
  | Some f => Ok f
  | None => Raise (AttributeError "hook_sql.hook" attr)
  end.

(** [f(source_table=..., hooks=..., grain=...)] for a name of [hook]: none of
    them accepts exactly these keywords. *)
Definition call_source_hooks_grain (f : hook_attr) (source_table : Table)
    (hooks : list HookSpec) (grain : list string) : result Query :=
  match f with
  | attr_exp => Raise (TypeError "'module' object is not callable")
  | attr_parse_one =>
      Raise (TypeError "parse_one() missing 1 required positional argument: 'sql'")
  | attr_build_hooks =>
      Raise (TypeError "build_hooks() got an unexpected keyword argument 'source_table'")
  | attr_build_hook_cte =>
      Raise (TypeError "build_hook_cte() got an unexpected keyword argument 'grain'")
  | attr_build_validity_cte =>
      Raise (TypeError "build_validity_cte() got an unexpected keyword argument 'source_table'")
  | attr_build_query =>
      Raise (TypeError "build_query() missing 1 required keyword-only argument: 'time_column'")
  end.

(** The keyword arguments the loop evaluates for the hook builder, in order:
    [spec["table"]], [spec["schema"]], [spec["database"]],
    [spec.get("hooks", [])], [spec.get("grain", [])]. *)
Definition hook_arguments (spec : TableSpec)
    : result (Table * list HookSpec * list string) :=
  t <- getitem "table" (table spec) ;;
  s <- getitem "schema" (schema spec) ;;
  d <- getitem "database" (database spec) ;;
  Ok (mkTable t (Some s) (Some d), get_default (hooks spec) [], get_default (grain spec) []).

Section Compiler.

(** The module [uss] and the renderer of sqlglot are collaborators from
    outside the two modules: [uss.build_bridge_query(manifest=, source_table=)],
    [uss.build_peripheral_query(source_table=, source_columns=)] and
    [Expression.sql(dialect=, pretty=True, identify=)]. *)
Variable build_bridge_query : Manifest -> Table -> result Query.
Variable build_peripheral_query : Table -> list (string * string) -> result Query.
Variable render : option string -> bool -> Query -> result string.

Variable manifest : Manifest.
Variable options : Options.

(** [q.sql(dialect=dialect, pretty=True, identify=identify) if as_sql else q] *)
Definition rendering (q : Query) : result rendered :=
  if as_sql options
  then text <- render (dialect options) (identify options) q ;; Ok (Text text)
  else Ok (Expr q).

(** [hook.build_hook_query(source_table=..., hooks=..., grain=...)]: the
    callee is looked up in [hook] before any argument is evaluated. *)
Definition hook_query_expr (spec : TableSpec) : result Query :=
  f <- getattr_hook "build_hook_query" ;;
  args <- hook_arguments spec ;;
  let '(source_table, hooks, grain) := args in
  call_source_hooks_grain f source_table hooks grain.

Definition hook_table (table : string) : Table :=
  mkTable table (Some (hook_target_schema options)) (Some (hook_target_db options)).

(** The dictionary stored under [queries[table]]. *)
Definition artifact_set (table : string) (hook_query : option rendered)
    (uss_bridge_query uss_peripheral_query : rendered) : CompiledArtifactSet :=
  {| hook :=
       {| target_database := hook_target_db options;
          target_schema := hook_target_schema options;
          target_table := table;
          query := hook_query |};
     uss_bridge :=
       {| target_database := uss_target_db options;
          target_schema := uss_target_schema options;
          target_table := "_bridge__" ++ table;
          query := Some uss_bridge_query |};
     uss_peripheral :=
       {| target_database := uss_target_db options;
          target_schema := uss_target_schema options;
          target_table := table;
          query := Some uss_peripheral_query |} |}.

(** The body of the loop over [manifest.items()]. *)
Definition table_queries (table : string) (spec : TableSpec) : result CompiledArtifactSet :=
  hook_query <-
    (if is_True (get (managed spec))
     then e <- hook_query_expr spec ;; r <- rendering e ;; Ok (Some r)
     else Ok None) ;;
  uss_bridge_query_expr <- build_bridge_query manifest (hook_table table) ;;
  uss_bridge_query <- rendering uss_bridge_query_expr ;;
  uss_peripheral_query_expr <-
    build_peripheral_query (hook_table table) (get_default (columns spec) []) ;;
  uss_peripheral_query <- rendering uss_peripheral_query_expr ;;
  Ok (artifact_set table hook_query uss_bridge_query uss_peripheral_query).

(** The collaborators return for a table: the bridge and the peripheral
    query are built and, when text is asked for, rendered. *)
Definition collaborators_return (table : string) (spec : TableSpec)
    (uss_bridge_query uss_peripheral_query : rendered) : Prop :=
  exists b p,
    build_bridge_query manifest (hook_table table) = Ok b
    /\ rendering b = Ok uss_bridge_query
    /\ build_peripheral_query (hook_table table) (get_default (columns spec) []) = Ok p
    /\ rendering p = Ok uss_peripheral_query.

Fixpoint build_queries_loop (items : Manifest) (queries : list (string * CompiledArtifactSet))
    : result (list (string * CompiledArtifactSet)) :=
  match items with
  | [] => Ok queries
  | (table, spec) :: items' =>
      entry <- table_queries table spec ;;
      build_queries_loop items' (dict_set table entry queries)
  end.

Definition build_queries : result (list (string * CompiledArtifactSet)) :=
  build_queries_loop manifest [].

End Compiler.

End Core.

(** ** The meaning of the emitted SQL

    The templates are written in the [fabric] dialect (T-SQL).  [Fabric.eval]
    gives the constructs the package emits their meaning there: [COALESCE]
    returns its first argument that is not NULL; [LEAST] ignores NULL
    arguments and is NULL when all are; [LEAD] and [LAG] are NULL past the
    ends of the partition; [CONCAT_WS] skips NULL arguments; [ORDER BY] puts
    NULL first; [+] joins two character values.  Values carry their own type;
    the implicit conversions of the engine are not modelled, and an
    expression they would be needed for has no value ([None]). *)

Module Fabric.

Inductive value : Type :=
| VNull
| VBool (b : bool)
| VInt (n : Z)
| VStr (s : string)
| VTs (t : Z).

(** A row binds column names to values, leftmost binding first; a relation
    is the list of its rows. *)
Definition row : Type := list (string * value).
Definition relation : Type := list row.

Definition column (r : row) (c : string) : value :=
  match dict_get c r with
  | Some v => v
  | None => VNull
  end.

Definition is_null (v : value) : bool :=
  match v with
  | VNull => true
  | _ => false
  end.

Definition value_eq_dec (a b : value) : {a = b} + {a <> b}.
Proof.
  decide equality;
    first [apply Bool.bool_dec | apply Z.eq_dec | apply string_dec].
Defined.

(** *** DATETIME(6): microseconds since 1970-01-01 00:00:00 *)

Definition days_from_civil (y m d : Z) : Z :=
  let y' := if (m <=? 2)%Z then (y - 1)%Z else y in
  let era := (y' / 400)%Z in
  let yoe := (y' - era * 400)%Z in
  let mp := ((m + 9) mod 12)%Z in
  let doy := ((153 * mp + 2) / 5 + d - 1)%Z in
  let doe := (yoe * 365 + yoe / 4 - yoe / 100 + doy)%Z in
  (era * 146097 + doe - 719468)%Z.

Definition civil_from_days (z : Z) : Z * Z * Z :=
  let z := (z + 719468)%Z in
  let era := (z / 146097)%Z in
  let doe := (z - era * 146097)%Z in
  let yoe := ((doe - doe / 1460 + doe / 36524 - doe / 146096) / 365)%Z in
  let doy := (doe - (365 * yoe + yoe / 4 - yoe / 100))%Z in
  let mp := ((5 * doy + 2) / 153)%Z in
  let d := (doy - (153 * mp + 2) / 5 + 1)%Z in
  let m := if (mp <? 10)%Z then (mp + 3)%Z else (mp - 9)%Z in
  let y := (yoe + era * 400)%Z in
  (if (m <=? 2)%Z then (y + 1)%Z else y, m, d).

Definition digit_of (c : ascii) : option Z :=
  let n := nat_of_ascii c in
  if ((48 <=? n)%nat && (n <=? 57)%nat)%bool then Some (Z.of_nat (n - 48)) else None.

(** Reads exactly [k] digits. *)
Fixpoint digits (k : nat) (acc : Z) (cs : list ascii) : option (Z * list ascii) :=
  match k with
  | O => Some (acc, cs)
  | S k' =>
      match cs with
      | c :: cs' =>
          match digit_of c with
          | Some d => digits k' (10 * acc + d)%Z cs'
          | None => None
          end
      | [] => None
      end
  end.

Definition expect (c : ascii) (cs : list ascii) : option (list ascii) :=
  match cs with
  | c' :: cs' => if Ascii.eqb c c' then Some cs' else None
  | [] => None
  end.

(** The fraction: up to six digits, read as microseconds. *)
Fixpoint fraction (k : nat) (acc : Z) (cs : list ascii) : option Z :=
  match cs with
  | [] => Some (acc * 10 ^ Z.of_nat k)%Z
  | c :: cs' =>
      match k, digit_of c with
      | S k', Some d => fraction k' (10 * acc + d)%Z cs'
      | _, _ => None
      end
  end.

Definition in_range (lo x hi : Z) : bool := ((lo <=? x)%Z && (x <=? hi)%Z)%bool.

(** ['YYYY-MM-DD hh:mm:ss'] with an optional ['.ffffff']. *)
Definition datetime_of_string (s : string) : option Z :=
  match digits 4 0 (list_ascii_of_string s) with
  | Some (y, cs) =>
  match expect "-" cs with Some cs =>
  match digits 2 0 cs with Some (m, cs) =>
  match expect "-" cs with Some cs =>
  match digits 2 0 cs with Some (d, cs) =>
  match expect " " cs with Some cs =>
  match digits 2 0 cs with Some (hh, cs) =>
  match expect ":" cs with Some cs =>
  match digits 2 0 cs with Some (mm, cs) =>
  match expect ":" cs with Some cs =>
  match digits 2 0 cs with Some (ss, cs) =>
  match match cs with
        | [] => Some 0%Z
        | c :: cs' => if Ascii.eqb c "." then fraction 6 0 cs' else None
        end with
  | Some us =>
      if (in_range 1 m 12 && in_range 1 d 31 && in_range 0 hh 23
          && in_range 0 mm 59 && in_range 0 ss 59)%bool
      then Some ((((days_from_civil y m d * 24 + hh) * 60 + mm) * 60 + ss) * 1000000 + us)%Z
      else None
  | None => None end
  | None => None end | None => None end | None => None end | None => None end
  | None => None end | None => None end | None => None end | None => None end
  | None => None end | None => None end
  | None => None
  end.

Definition pad (width : nat) (n : Z) : string :=
  let s := NilZero.string_of_int (Z.to_int n) in
  String.concat "" (repeat "0" (width - String.length s)) ++ s.

(** The text of a DATETIME(6) value: [YYYY-MM-DD hh:mm:ss.ffffff]. *)
Definition string_of_datetime (t : Z) : string :=
  let days := (t / 86400000000)%Z in
  let rest := (t mod 86400000000)%Z in
  let '(y, m, d) := civil_from_days days in
  let secs := (rest / 1000000)%Z in
  pad 4 y ++ "-" ++ pad 2 m ++ "-" ++ pad 2 d ++ " "
  ++ pad 2 (secs / 3600) ++ ":" ++ pad 2 ((secs / 60) mod 60) ++ ":" ++ pad 2 (secs mod 60)
  ++ "." ++ pad 6 (rest mod 1000000).

(** The character form of a value, as [CONCAT_WS] takes its arguments. *)
Definition text_of (v : value) : string :=
  match v with
  | VNull => ""
  | VBool b => if b then "1" else "0"
  | VInt n => NilZero.string_of_int (Z.to_int n)
  | VStr s => s
  | VTs t => string_of_datetime t
  end.

(** *** Order *)

Definition rank (v : value) : nat :=
  match v with
  | VNull => 0
  | VBool _ => 1
  | VInt _ => 2
  | VTs _ => 3
  | VStr _ => 4
  end.

(** NULL sorts first; values of one type in their own order. *)
Definition value_leb (a b : value) : bool :=
  match a, b with
  | VBool x, VBool y => implb x y
  | VInt x, VInt y => (x <=? y)%Z
  | VTs x, VTs y => (x <=? y)%Z
  | VStr x, VStr y => String.leb x y
  | _, _ => (rank a <=? rank b)%nat
  end.

Definition key : Type := list (option value).

Definition key_eq_dec (a b : key) : {a = b} + {a <> b}.
Proof.
  apply list_eq_dec. intros x y.
  destruct x as [x|], y as [y|]; try (right; discriminate); [|left; reflexivity].
  destruct (value_eq_dec x y) as [->|n]; [left; reflexivity | right; congruence].
Defined.

Definition key_eqb (a b : key) : bool := if key_eq_dec a b then true else false.

Definition item_leb (a b : option value) : bool :=
  match a, b with
  | None, _ => true
  | Some _, None => false
  | Some x, Some y => value_leb x y
  end.

Fixpoint key_leb (a b : key) : bool :=
  match a, b with
  | [], _ => true
  | _ :: _, [] => false
  | x :: a', y :: b' =>
      if key_eqb [x] [y] then key_leb a' b' else item_leb x y
  end.

(** Stable insertion sort of row numbers by their sort key. *)
Fixpoint insert (ords : nat -> key) (x : nat) (l : list nat) : list nat :=
  match l with
  | [] => [x]
  | y :: l' => if key_leb (ords x) (ords y) then x :: l else y :: insert ords x l'
  end.

Fixpoint sort (ords : nat -> key) (l : list nat) : list nat :=
  match l with
  | [] => []
  | x :: l' => insert ords x (sort ords l')
  end.

(** The window of row [i]: the rows of the [n]-row relation that agree with
    it on the partition key, in the order of the sort key.  Rows with equal
    sort keys keep the order the relation lists them in, so the orders an
    engine may pick among ties are the orders of the relation's rows. *)
Definition window_frame (keys ords : nat -> key) (n i : nat) : list nat :=
  sort ords (filter (fun j => key_eqb (keys j) (keys i)) (seq 0 n)).

Fixpoint index_of (i : nat) (l : list nat) : nat :=
  match l with
  | [] => 0
  | x :: l' => if (x =? i)%nat then 0 else S (index_of i l')
  end.

(** *** Operators *)

Definition sql_not (v : value) : option value :=
  match v with
  | VBool b => Some (VBool (negb b))
  | VNull => Some VNull
  | _ => None
  end.

Definition sql_add (a b : value) : option value :=
  match a, b with
  | VNull, (VNull | VInt _ | VStr _) | (VInt _ | VStr _), VNull => Some VNull
  | VStr x, VStr y => Some (VStr (x ++ y))
  | VInt x, VInt y => Some (VInt (x + y))
  | _, _ => None
  end.

Definition same_type (a b : value) : bool := (rank a =? rank b)%nat.

Definition sql_eq (a b : value) : option value :=
  match a, b with
  | VNull, _ | _, VNull => Some VNull
  | _, _ => if same_type a b
            then Some (VBool (if value_eq_dec a b then true else false))
            else None
  end.

(** [a <= b] *)
Definition sql_le (a b : value) : option value :=
  match a, b with
  | VNull, _ | _, VNull => Some VNull
  | _, _ => if same_type a b then Some (VBool (value_leb a b)) else None
  end.

(** Three-valued [AND]. *)
Definition sql_and (a b : value) : option value :=
  match a, b with
  | VBool false, (VBool _ | VNull) | (VBool _ | VNull), VBool false => Some (VBool false)
  | VBool true, VBool true => Some (VBool true)
  | VNull, (VBool true | VNull) | VBool true, VNull => Some VNull
  | _, _ => None
  end.

(** [e BETWEEN low AND high] is [e >= low AND e <= high]. *)
Definition sql_between (v lo hi : value) : option value :=
  match sql_le lo v, sql_le v hi with
  | Some a, Some b => sql_and a b
  | _, _ => None
  end.

Definition least2 (a b : value) : value :=
  match a, b with
  | VNull, _ => b
  | _, VNull => a
  | _, _ => if value_leb a b then a else b
  end.

Definition sql_least (vs : list value) : value := fold_right least2 VNull vs.

Definition sql_cast (v : value) (t : datatype) : option value :=
  match t with
  | DATETIME 6 =>
      match v with
      | VNull => Some VNull
      | VTs x => Some (VTs x)
      | VStr s =>
          match datetime_of_string s with
          | Some x => Some (VTs x)
          | None => None
          end
      | _ => None
      end
  | DATETIME _ => None
  end.

Definition sql_concat_ws (vs : list value) : option value :=
  match vs with
  | VStr sep :: rest =>
      Some (VStr (String.concat sep (map text_of (filter (fun v => negb (is_null v)) rest))))
  | VNull :: _ => Some VNull
  | _ => None
  end.

Fixpoint all_some {A} (l : list (option A)) : option (list A) :=
  match l with
  | [] => Some []
  | Some a :: l' =>
      match all_some l' with
      | Some r => Some (a :: r)
      | None => None
      end
  | None :: _ => None
  end.

(** *** Expressions

    [eval tbl i e]: the value of [e] at row number [i] of the relation
    [tbl]. *)
Fixpoint eval (tbl : relation) (i : nat) (e : exp) {struct e} : option value :=
  match e with
  | Column c => Some (column (nth i tbl []) c)
  | Star => None
  | Null => Some VNull
  | LitStr s => Some (VStr s)
  | LitNum n => Some (VInt n)
  | Not a =>
      match eval tbl i a with
      | Some v => sql_not v
      | None => None
      end
  | Is a b =>
      match b, eval tbl i a with
      | Null, Some v => Some (VBool (is_null v))
      | _, _ => None
      end
  | Add a b =>
      match eval tbl i a, eval tbl i b with
      | Some x, Some y => sql_add x y
      | _, _ => None
      end
  | EQ a b =>
      match eval tbl i a, eval tbl i b with
      | Some x, Some y => sql_eq x y
      | _, _ => None
      end
  | Between a l h =>
      match eval tbl i a, eval tbl i l, eval tbl i h with
      | Some x, Some lo, Some hi => sql_between x lo hi
      | _, _, _ => None
      end
  | Case ifs d =>
      (fix whens (l : list (exp * exp)) : option value :=
         match l with
         | [] =>
             match d with
             | Some x => eval tbl i x
             | None => Some VNull
             end
         | (c, t) :: l' =>
             match eval tbl i c with
             | Some (VBool true) => eval tbl i t
             | Some (VBool false) | Some VNull => whens l'
             | _ => None
             end
         end) ifs
  | Alias a _ => eval tbl i a
  | Coalesce args =>
      (fix first (l : list exp) : option value :=
         match l with
         | [] => Some VNull
         | a :: l' =>
             match eval tbl i a with
             | Some VNull => first l'
             | r => r
             end
         end) args
  | Least args =>
      match all_some (map (eval tbl i) args) with
      | Some vs => Some (sql_least vs)
      | None => None
      end
  | Cast a t =>
      match eval tbl i a with
      | Some v => sql_cast v t
      | None => None
      end
  | ConcatWs args _ =>
      match all_some (map (eval tbl i) args) with
      | Some vs => sql_concat_ws vs
      | None => None
      end
  | Window fn args pb ob =>
      let frame :=
        window_frame (fun j => map (eval tbl j) pb) (fun j => map (eval tbl j) ob)
                     (length tbl) i in
      let p := index_of i frame in
      let arg_at j :=
        match args with
        | a :: _ => eval tbl j a
        | [] => None
        end in
      match fn with
      | ROW_NUMBER => Some (VInt (Z.of_nat (S p)))
      | LEAD =>
          match nth_error frame (S p) with
          | Some j => arg_at j
          | None => Some VNull
          end
      | LAG =>
          match p with
          | O => Some VNull
          | S p' =>
              match nth_error frame p' with
              | Some j => arg_at j
              | None => Some VNull
              end
          end
      end
  end.

(** *** Queries *)

(** The columns one select item adds to the output row. *)
Definition project (tbl : relation) (i : nat) (e : exp) : option row :=
  match e with
  | Star => Some (nth i tbl [])
  | Alias a n =>
      match eval tbl i a with
      | Some v => Some [(n, v)]
      | None => None
      end
  | Column c => Some [(c, column (nth i tbl []) c)]
  | _ =>
      match eval tbl i e with
      | Some v => Some [("", v)]
      | None => None
      end
  end.

Definition select_row (items : list exp) (tbl : relation) (i : nat) : option row :=
  match all_some (map (project tbl i) items) with
  | Some parts => Some (concat parts)
  | None => None
  end.

(** A row passes [WHERE] when the condition is true (not false, not NULL). *)
Definition passes (w : option exp) (tbl : relation) (i : nat) : option bool :=
  match w with
  | None => Some true
  | Some c =>
      match eval tbl i c with
      | Some (VBool b) => Some b
      | Some VNull => Some false
      | _ => None
      end
  end.

Fixpoint keep (w : option exp) (tbl : relation) (rows : list nat) : option relation :=
  match rows with
  | [] => Some []
  | i :: rows' =>
      match passes w tbl i, keep w tbl rows' with
      | Some b, Some rest => Some (if b then nth i tbl [] :: rest else rest)
      | _, _ => None
      end
  end.

(** [FROM], then [WHERE], then the select list over the rows kept. *)
Definition run_select (s : Select) (tbl : relation) : option relation :=
  match keep (where_ s) tbl (seq 0 (length tbl)) with
  | Some kept => all_some (map (select_row (expressions s) kept) (seq 0 (length kept)))
  | None => None
  end.





(** *** The validity window, row by row *)

Definition load_timestamp : string := "_record__loaded_at".
Definition removal_timestamp : string := "_record__hash_removed_at".

Definition loaded_at (tbl : relation) (j : nat) : value :=
  column (nth j tbl []) load_timestamp.

Definition removed_at (tbl : relation) (j : nat) : value :=
  column (nth j tbl []) removal_timestamp.

(** The partition key and the sort key of [PARTITION BY {grain} ORDER BY
    _record__loaded_at]. *)
Definition grain_key (grain : list string) (tbl : relation) (j : nat) : key :=
  map (eval tbl j) (map Column grain).

Definition load_key (tbl : relation) (j : nat) : key :=
  map (eval tbl j) [Column load_timestamp].

(** The grain partition of row [i], in load-timestamp order. *)
Definition partition_of (grain : list string) (tbl : relation) (i : nat) : list nat :=
  window_frame (grain_key grain tbl) (load_key tbl) (length tbl) i.

(** The row that immediately follows row [i] in its partition, if any. *)
Definition following (grain : list string) (tbl : relation) (i : nat) : option nat :=
  nth_error (partition_of grain tbl i) (S (index_of i (partition_of grain tbl i))).

(** The load timestamp of the following row; NULL when there is none. *)
Definition next_loaded_at (grain : list string) (tbl : relation) (i : nat) : value :=
  match following grain tbl i with
  | Some j => loaded_at tbl j
  | None => VNull
  end.

(** The last row of a partition. *)
Definition last_row (p : list nat) : option nat := nth_error p (length p - 1).

(** The row that immediately precedes row [i] in its partition, if any. *)
Definition preceding (grain : list string) (tbl : relation) (i : nat) : option nat :=
  match index_of i (partition_of grain tbl i) with
  | O => None
  | S k => nth_error (partition_of grain tbl i) k
  end.

Definition previous_loaded_at (grain : list string) (tbl : relation) (i : nat) : value :=
  match preceding grain tbl i with
  | Some j => loaded_at tbl j
  | None => VNull
  end.

(** ['9999-12-31 23:59:59.999999'] and ['1970-01-01 00:00:00'] as
    DATETIME(6) values. *)
Definition infinite : Z := 253402300799999999.
Definition epoch : Z := 0.

(** *** The six derived columns, in words

    What section 4.3 of the specification says of each derived column, to be
    compared with the value of the expression [build_validity_cte] emits. *)

Definition or_else (v fallback : value) : value :=
  if is_null v then fallback else v.

(** The earlier of the removal timestamp and the following load timestamp,
    whichever exist. *)
Definition ended_at (grain : list string) (tbl : relation) (i : nat) : value :=
  least2 (removed_at tbl i) (next_loaded_at grain tbl i).

Definition valid_from_of (grain : list string) (tbl : relation) (i : nat) : value :=
  or_else (previous_loaded_at grain tbl i) (VTs epoch).

Definition valid_to_of (grain : list string) (tbl : relation) (i : nat) : value :=
  or_else (ended_at grain tbl i) (VTs infinite).

Definition version_of (grain : list string) (tbl : relation) (i : nat) : value :=
  VInt (Z.of_nat (S (index_of i (partition_of grain tbl i)))).

Definition is_current_of (grain : list string) (tbl : relation) (i : nat) : value :=
  VInt (if is_null (next_loaded_at grain tbl i) then 1 else 0).

Definition updated_at_of (grain : list string) (tbl : relation) (i : nat) : value :=
  or_else (ended_at grain tbl i) (loaded_at tbl i).

(** The grain values in grain order, then the load timestamp, NULL written
    as the empty text, joined by the separator. *)
Definition uid_of (grain : list string) (tbl : relation) (i : nat) : value :=
  VStr (String.concat "|"
          (map (fun c => text_of (column (nth i tbl []) c)) (grain ++ [load_timestamp]))).

Definition validity_row (grain : list string) (tbl : relation) (i : nat) : row :=
  (nth i tbl []
   ++ [("_record__valid_from", valid_from_of grain tbl i);
       ("_record__valid_to", valid_to_of grain tbl i);
       ("_record__version", version_of grain tbl i);
       ("_record__is_current", is_current_of grain tbl i);
       ("_record__updated_at", updated_at_of grain tbl i);
       ("_record__uid", uid_of grain tbl i)])%list.

End Fabric.

(** ** Collaborators to run the compiler with

    [build_queries] is run below on concrete manifests with these in the
    place of the module [uss] and of the renderer: a bridge and a peripheral
    query that read every column of the table they are given, and the
    one-line generator. *)

Module Sample.

Import Hook Core Fabric.

Definition bridge (m : Manifest) (t : Table) : result Query :=
  Ok (Plain (mkSelect [Star] t None)).

Definition peripheral (t : Table) (cols : list (string * string)) : result Query :=
  Ok (Plain (mkSelect (map (fun c => Column (fst c)) cols ++ [Star]) t None)).

Definition render (dialect : option string) (identify : bool) (q : Query) : result string :=
  Ok (query_sql q).

Definition orders_hooks : list HookSpec :=
  [mkHook "_HK__order" "order" "northwind:order" "id";
   mkHook "_HK__customer" "customer" "northwind:customer" "customer_id"].

(** The first entry of the manifest in the docstring of [build_queries]. *)
Definition orders : TableSpec :=
  mkSpec (Some "bronze") (Some "northwind") (Some "orders")
         (Some ["_HK__order"])
         (Some [("id", "int"); ("customer_id", "int"); ("order_date", "datetime")])
         (Some orders_hooks)
         (Some (PyBool true))
         (Some (PyBool true)).

Definition with_managed (v : option pyval) (spec : TableSpec) : TableSpec :=
  mkSpec (database spec) (schema spec) (table spec) (grain spec) (columns spec)
         (hooks spec) (invalidate_hard_deletes spec) v.

(** An entry with neither ['table'], ['schema'], ['database'] nor ['hooks']. *)
Definition bare (v : option pyval) : TableSpec :=
  mkSpec None None None None None None None v.

(** Rows of a relation with the two audit columns and one grain column. *)
Definition loaded (id : string) (loaded_at removed_at : value) : row :=
  [("id", VStr id); ("_record__loaded_at", loaded_at); ("_record__hash_removed_at", removed_at)].

(** Three loads of [a], the first one later removed, and one load of [b]. *)
Definition history : relation :=
  [loaded "a" (VTs 30) VNull;
   loaded "b" (VTs 5) VNull;
   loaded "a" (VTs 10) (VTs 20);
   loaded "a" (VTs 20) VNull].

(** Two rows of one partition, neither with a load timestamp. *)
Definition twice_unloaded : relation :=
  [loaded "a" VNull VNull; loaded "a" VNull VNull].

(** Two hooks under one name. *)
Definition same_name : list HookSpec :=
  [mkHook "h" "order" "northwind:order" "id";
   mkHook "h" "customer" "northwind:customer" "customer_id"].

Definition source : Table := mkTable "orders" (Some "northwind") (Some "bronze").

End Sample.

(** ** The hook stage, in words *)

Module Keys.

Import Hook Fabric.




(** No separator in a text. *)
Definition separator_free (s : string) : bool :=
  forallb (fun c => negb (nat_of_ascii c =? 124)%nat) (list_ascii_of_string s).

(** The load timestamp column holds timestamps or NULL. *)
Definition timestamped (tbl : relation) : Prop :=
  forall j, loaded_at tbl j = VNull \/ exists a, loaded_at tbl j = VTs a.


End Keys.

(** ** The export functions of core.py

    [write_query_file], [create_export_directories] and [export_queries]
    act on the file system through [pathlib].  A file system is modelled by
    what it holds at each path; a path is the list of its parts, the
    innermost first, so that [name :: p] is [p / name] and the tail of a path
    is its parent.  The empty path is the directory relative paths start
    from. *)

Module Files.

Import Hook Core.

Inductive node : Type :=
| Dir
| File (content : string).

Definition Path : Type := list string.

Definition filesystem : Type := Path -> option node.

Inductive os_error : Type :=
| FileExistsError
| FileNotFoundError
| NotADirectoryError
| IsADirectoryError.

Inductive failure : Type :=
| OSError (e : os_error) (path : Path)
| PyError (e : exn).

(** What a call leaves behind: the file system after it, and its value or
    the exception it raised. *)
Inductive outcome (A : Type) : Type :=
| Done (a : A)
| Failed (e : failure).
Arguments Done {A} a.
Arguments Failed {A} e.

Definition path_eq_dec (p q : Path) : {p = q} + {p <> q} := list_eq_dec string_dec p q.

Definition put (fs : filesystem) (p : Path) (n : node) : filesystem :=
  fun q => if path_eq_dec q p then Some n else fs q.

(** *** [p / s] *)

Definition is_slash (c : ascii) : bool := (nat_of_ascii c =? 47)%nat.

(** The pieces of a text between slashes. *)
Fixpoint segments (s : string) (current : string) : list string :=
  match s with
  | EmptyString => [current]
  | String c s' =>
      if is_slash c then current :: segments s' "" else segments s' (current ++ String c "")
  end.

Fixpoint leading_slashes (s : string) : nat :=
  match s with
  | String c s' => if is_slash c then S (leading_slashes s') else 0
  | EmptyString => 0
  end.

Definition is_part (s : string) : bool := negb (String.eqb s "") && negb (String.eqb s ".").

(** Empty pieces and [.] are dropped; a text that starts with a slash is an
    absolute path and replaces [p] (two leading slashes are kept as they
    are, as POSIX has it). *)
Definition joinpath (p : Path) (s : string) : Path :=
  (rev (filter is_part (segments s ""))
   ++ match leading_slashes s with
      | 0 => p
      | 2 => ["//"]
      | _ => ["/"]
      end)%list.

(** *** [Path.mkdir(parents=True, exist_ok=True)]

    [os.mkdir] first; an existing directory is accepted, an existing file is
    not; when the parent is missing it is made first, in the same way. *)
Fixpoint mkdir (fs : filesystem) (p : Path) : filesystem * outcome unit :=
  match fs p with
  | Some Dir => (fs, Done tt)
  | Some (File _) => (fs, Failed (OSError FileExistsError p))
  | None =>
      match p with
      | [] => (fs, Failed (OSError FileNotFoundError p))
      | _ :: parent =>
          match fs parent with
          | Some Dir => (put fs p Dir, Done tt)
          | Some (File _) => (fs, Failed (OSError NotADirectoryError p))
          | None =>
              match mkdir fs parent with
              | (fs', Done _) => (put fs' p Dir, Done tt)
              | (fs', Failed e) => (fs', Failed e)
              end
          end
      end
  end.

(** *** [Path.write_text(content)]: creates the file or replaces its content. *)
Definition write_text (fs : filesystem) (p : Path) (content : string)
    : filesystem * outcome unit :=
  match fs p with
  | Some Dir => (fs, Failed (OSError IsADirectoryError p))
  | _ =>
      match fs (tl p) with
      | Some Dir => (put fs p (File content), Done tt)
      | Some (File _) => (fs, Failed (OSError NotADirectoryError p))
      | None => (fs, Failed (OSError FileNotFoundError p))
      end
  end.

Definition write_query_file (fs : filesystem) (path : Path) (content : string)
    : filesystem * outcome unit :=
  write_text fs path content.

(** [for directory in directories.values(): directory.mkdir(...)] *)
Fixpoint mkdir_each (fs : filesystem) (directories : list (string * Path))
    : filesystem * outcome unit :=
  match directories with
  | [] => (fs, Done tt)
  | (_, directory) :: rest =>
      match mkdir fs directory with
      | (fs', Done _) => mkdir_each fs' rest
      | (fs', Failed e) => (fs', Failed e)
      end
  end.

Definition create_export_directories (fs : filesystem) (base_path : Path)
    : filesystem * outcome (list (string * Path)) :=
  let directories :=
    [("hook", joinpath base_path "hook");
     ("uss_bridge", joinpath base_path "uss_bridge");
     ("uss_peripheral", joinpath base_path "uss_peripheral")] in
  match mkdir_each fs directories with
  | (fs', Done _) => (fs', Done directories)
  | (fs', Failed e) => (fs', Failed e)
  end.

Section Exporter.

(** [Expression.sql(dialect=, pretty=True, identify=)], as in [Core]. *)
Variable render : option string -> bool -> Query -> result string.

Variable dialect : option string.
Variable identify : bool.

(** The text written for a query: an expression is rendered, a text is
    written as it is. *)
Definition query_text (q : rendered) : result string :=
  match q with
  | Expr e => render dialect identify e
  | Text s => Ok s
  end.

(** The body of the inner loop; [query_info] is [query_info.get("query")]. *)
Definition export_query (directories : list (string * Path)) (fs : filesystem)
    (table : string) (query_type : string) (query_info : option rendered)
    : filesystem * outcome unit :=
  match query_info with
  | None => (fs, Done tt)
  | Some q =>
      match query_text q with
      | Raise e => (fs, Failed (PyError e))
      | Ok text =>
          match dict_get query_type directories with
          | None => (fs, Failed (PyError (KeyError query_type)))
          | Some target_dir =>
              let file_path := joinpath target_dir (table ++ ".sql") in
              write_query_file fs file_path text
          end
      end
  end.

Fixpoint export_table (directories : list (string * Path)) (fs : filesystem)
    (table : string) (query_types : list (string * option rendered))
    : filesystem * outcome unit :=
  match query_types with
  | [] => (fs, Done tt)
  | (query_type, query_info) :: rest =>
      match export_query directories fs table query_type query_info with
      | (fs', Done _) => export_table directories fs' table rest
      | (fs', Failed e) => (fs', Failed e)
      end
  end.

Fixpoint export_tables (directories : list (string * Path)) (fs : filesystem)
    (queries : list (string * list (string * option rendered)))
    : filesystem * outcome unit :=
  match queries with
  | [] => (fs, Done tt)
  | (table, query_types) :: rest =>
      match export_table directories fs table query_types with
      | (fs', Done _) => export_tables directories fs' rest
      | (fs', Failed e) => (fs', Failed e)
      end
  end.

Definition export_queries (fs : filesystem)
    (queries : list (string * list (string * option rendered))) (export_path : Path)
    : filesystem * outcome unit :=
  match create_export_directories fs export_path with
  | (fs', Done directories) => export_tables directories fs' queries
  | (fs', Failed e) => (fs', Failed e)
  end.

End Exporter.

(** The dictionary [build_queries] stores for a table, as [export_queries]
    reads it: the query of each of the three descriptors. *)
Definition query_types_of (a : CompiledArtifactSet) : list (string * option rendered) :=
  [("hook", query (hook a));
   ("uss_bridge", query (uss_bridge a));
   ("uss_peripheral", query (uss_peripheral a))].

(** [build_queries] with its [export_path]: the queries are built, then
    exported when a path is given, then returned. *)
Definition build_queries_export
    (build_bridge_query : Manifest -> Table -> result Query)
    (build_peripheral_query : Table -> list (string * string) -> result Query)
    (render : option string -> bool -> Query -> result string)
    (manifest : Manifest) (options : Options) (export_path : option Path)
    (fs : filesystem) : filesystem * outcome (list (string * CompiledArtifactSet)) :=
  match build_queries build_bridge_query build_peripheral_query render manifest options with
  | Raise e => (fs, Failed (PyError e))
  | Ok queries =>
      match export_path with
      | None => (fs, Done queries)
      | Some path =>
          match export_queries render (dialect options) (identify options) fs
                  (map (fun q => (fst q, query_types_of (snd q))) queries) path with
          | (fs', Done _) => (fs', Done queries)
          | (fs', Failed e) => (fs', Failed e)
          end
      end
  end.

(** *** Preconditions *)

Definition slash_free (s : string) : bool :=
  forallb (fun c => negb (is_slash c)) (list_ascii_of_string s).

(** A path and its ancestors. *)
Fixpoint ancestors (p : Path) : list Path :=
  match p with
  | [] => [[]]
  | _ :: parent => p :: ancestors parent
  end.

(** Neither the path nor an ancestor of it is a file. *)
Definition no_file_on (fs : filesystem) (p : Path) : Prop :=
  forall q c, In q (ancestors p) -> fs q <> Some (File c).

Definition kinds : list string := ["hook"; "uss_bridge"; "uss_peripheral"].

(** The place an export to [base] writes the query of kind [k] of table [t]. *)
Definition target (base : Path) (t k : string) : Path := (t ++ ".sql") :: k :: base.

(** An empty file system but for the starting directory. *)
Definition empty_fs : filesystem :=
  fun p => match p with [] => Some Dir | _ => None end.

(** The dictionaries are dictionaries: no table twice, no kind twice under a
    table. *)
Definition well_keyed (queries : list (string * list (string * option rendered))) : Prop :=
  NoDup (keys queries) /\ forall t qts, In (t, qts) queries -> NoDup (keys qts).

(** Every query to write can be written: its table name holds no slash, its
    kind is one of the three, it renders, and no directory stands where its
    file goes. *)
Definition exportable (render : option string -> bool -> Query -> result string)
    (dialect : option string) (identify : bool) (base : Path) (fs : filesystem)
    (queries : list (string * list (string * option rendered))) : Prop :=
  forall t qts k q,
    In (t, qts) queries -> In (k, Some q) qts ->
    slash_free t = true
    /\ In k kinds
    /\ (exists text, query_text render dialect identify q = Ok text)
    /\ fs (target base t k) <> Some Dir.

(** The three directories of an export to [base], by kind. *)
Definition export_directories (base : Path) : list (string * Path) :=
  [("hook", "hook" :: base);
   ("uss_bridge", "uss_bridge" :: base);
   ("uss_peripheral", "uss_peripheral" :: base)].

End Files.

(** ** The call of build_queries *)

Module Call.

Import Core Files.

(** The parameters of [build_queries], all of them keyword-only:
    [def build_queries( *, manifest, hook_target_db="silver",
    hook_target_schema="hook", uss_target_db="gold", uss_target_schema="uss",
    as_sql=True, dialect=None, export_path=None, identify=True)]. *)
Definition parameters : list string :=
  ["manifest"; "hook_target_db"; "hook_target_schema"; "uss_target_db";
   "uss_target_schema"; "as_sql"; "dialect"; "export_path"; "identify"].

Definition is_parameter (k : string) : bool := existsb (String.eqb k) parameters.

(** The first keyword of a call that names no parameter. *)
Definition unexpected (keywords : list string) : option string :=
  find (fun k => negb (is_parameter k)) keywords.

Definition unexpected_keyword (k : string) : exn :=
  TypeError ("build_queries() got an unexpected keyword argument '" ++ k ++ "'").

Definition missing_manifest : exn :=
  TypeError "build_queries() missing 1 required keyword-only argument: 'manifest'".

(** A call [build_queries(k1=v1, k2=v2, ...)].  [keywords] are the names
    [k1], [k2], ... the caller passes, in order; [manifest], [options] and
    [export_path] are the values of the parameters once bound, that is what
    the caller passes under a parameter's name, and the default under a name
    the caller leaves out.  A keyword that names no parameter raises
    TypeError when the arguments are bound, before the body runs; so does a
    call without [manifest], the one parameter with no default. *)
Definition call_build_queries
    (build_bridge_query : Manifest -> Table -> result Query)
    (build_peripheral_query : Table -> list (string * string) -> result Query)
    (render : option string -> bool -> Query -> result string)
    (keywords : list string)
    (manifest : Manifest) (options : Options) (export_path : option Path)
    (fs : filesystem) : filesystem * outcome (list (string * CompiledArtifactSet)) :=
  match unexpected keywords with
  | Some k => (fs, Failed (PyError (unexpected_keyword k)))
  | None =>
      if existsb (String.eqb "manifest") keywords
      then build_queries_export build_bridge_query build_peripheral_query render
             manifest options export_path fs
      else (fs, Failed (PyError missing_manifest))
  end.

End Call.

(** ** Inputs to run the export functions on *)

Module Cases.

Import Core Files.

(** One table with no hook query, a bridge query given as text and a
    peripheral query given as an expression. *)
Definition orders_queries : list (string * list (string * option rendered)) :=
  [("orders",
    [("hook", None);
     ("uss_bridge", Some (Text "SELECT 1"));
     ("uss_peripheral", Some (Expr (Plain (mkSelect [Star] Sample.source None))))])].

(** The options of a call, with another [as_sql]. *)
Definition with_as_sql (b : bool) (o : Options) : Options :=
  mkOptions (hook_target_db o) (hook_target_schema o) (uss_target_db o)
            (uss_target_schema o) b (dialect o) (identify o).

(** Two unmanaged tables. *)
Definition two_tables : Manifest :=
  [("northwind__orders", Sample.with_managed (Some (PyBool false)) Sample.orders);
   ("northwind__regions", Sample.bare None)].

(** A query as text and the same query as an expression that renders to
    that text, or no query on either side. *)
Inductive same_query (render : option string -> bool -> Query -> result string)
    (options : Options) : option rendered -> option rendered -> Prop :=
| same_none : same_query render options None None
| same_text (s : string) (q : Query) :
    render (dialect options) (identify options) q = Ok s ->
    same_query render options (Some (Text s)) (Some (Expr q)).

Definition same_queries (render : option string -> bool -> Query -> result string)
    (options : Options) (a b : list (string * option rendered)) : Prop :=
  Forall2 (fun x y => fst x = fst y /\ same_query render options (snd x) (snd y)) a b.


Definition same_results (render : option string -> bool -> Query -> result string)
    (options : Options) (a b : list (string * CompiledArtifactSet)) : Prop :=
  Forall2 (fun x y =>
             fst x = fst y
             /\ same_queries render options (query_types_of (snd x)) (query_types_of (snd y)))
          a b.

End Cases.

Import Hook Core Fabric.

Example build_hooks_doctest :
  map sql (build_hooks [mkHook "test_hook" "" "test_keyset" "column1"])
  = ["CASE WHEN NOT column1 IS NULL THEN 'test_keyset|' + column1 END AS test_hook"].
Proof. vm_compute. reflexivity. Qed.

Example build_hook_cte_doctest :
  squeeze (select_sql (build_hook_cte (mkTable "test_table" (Some "test_schema") None)
                                      [mkHook "test_hook" "" "test_keyset" "id"]))
  = squeeze "SELECT
          CASE WHEN NOT id IS NULL THEN 'test_keyset|' + id END AS test_hook,
          *
        FROM test_schema.test_table".
Proof. vm_compute. reflexivity. Qed.

Example build_validity_cte_doctest :
  squeeze (select_sql (build_validity_cte (mkTable "test_table" None None) ["id"]))
  = squeeze "SELECT
          *,
          COALESCE(
            LAG(_record__loaded_at) OVER (PARTITION BY id ORDER BY _record__loaded_at),
            CAST('1970-01-01 00:00:00' AS DATETIME(6))
          ) AS _record__valid_from,
          COALESCE(
            LEAST(
              _record__hash_removed_at,
              LEAD(_record__loaded_at) OVER (PARTITION BY id ORDER BY _record__loaded_at)
            ),
            CAST('9999-12-31 23:59:59.999999' AS DATETIME(6))
          ) AS _record__valid_to,
          ROW_NUMBER() OVER (PARTITION BY id ORDER BY _record__loaded_at) AS _record__version,
          CASE
            WHEN LEAD(_record__loaded_at) OVER (PARTITION BY id ORDER BY _record__loaded_at) IS NULL
            THEN 1
            ELSE 0
          END AS _record__is_current,
          COALESCE(
            LEAST(
              _record__hash_removed_at,
              LEAD(_record__loaded_at) OVER (PARTITION BY id ORDER BY _record__loaded_at)
            ),
            _record__loaded_at
          ) AS _record__updated_at,
          CONCAT_WS('|', COALESCE(id, ''), COALESCE(_record__loaded_at, '')) AS _record__uid
        FROM test_table".
Proof. vm_compute. reflexivity. Qed.

Example build_query_doctest :
  squeeze (query_sql (build_query (mkTable "test_table" (Some "test_schema") None)
                                  [mkHook "hook1" "" "key1" "col1"] ["id"]
                                  "_record__updated_at"
                                  (Some "2023-01-01 00:00:00") (Some "2023-01-02 00:00:00")))
  = squeeze "WITH cte__hook AS (
          SELECT
            CASE WHEN NOT col1 IS NULL THEN 'key1|' + col1 END AS hook1,
            *
          FROM test_schema.test_table
        ), cte__validity AS (
          SELECT
            *,
            COALESCE(
              LAG(_record__loaded_at) OVER (PARTITION BY id ORDER BY _record__loaded_at),
              CAST('1970-01-01 00:00:00' AS DATETIME(6))
            ) AS _record__valid_from,
            COALESCE(
              LEAST(
                _record__hash_removed_at,
                LEAD(_record__loaded_at) OVER (PARTITION BY id ORDER BY _record__loaded_at)
              ),
              CAST('9999-12-31 23:59:59.999999' AS DATETIME(6))
            ) AS _record__valid_to,
            ROW_NUMBER() OVER (PARTITION BY id ORDER BY _record__loaded_at) AS _record__version,
            CASE
              WHEN LEAD(_record__loaded_at) OVER (PARTITION BY id ORDER BY _record__loaded_at) IS NULL
              THEN 1
              ELSE 0
            END AS _record__is_current,
            COALESCE(
              LEAST(
                _record__hash_removed_at,
                LEAD(_record__loaded_at) OVER (PARTITION BY id ORDER BY _record__loaded_at)
              ),
              _record__loaded_at
            ) AS _record__updated_at,
            CONCAT_WS('|', COALESCE(COALESCE(id, ''), ''), COALESCE(COALESCE(_record__loaded_at, ''), '')) AS _record__uid
          FROM cte__hook
        )
        SELECT
          *
        FROM cte__validity
        WHERE
          _record__updated_at BETWEEN CAST('2023-01-01 00:00:00' AS DATETIME(6)) AND CAST('2023-01-02 00:00:00' AS DATETIME(6))".
Proof. vm_compute. reflexivity. Qed.

(** ** Facts about windows *)

Section Windows.

Variables keys ords : nat -> key.

Lemma insert_perm (x : nat) (l : list nat) : Permutation (insert ords x l) (x :: l).
Proof.
  induction l as [|y l IH]; simpl.
  - reflexivity.
  - destruct (key_leb (ords x) (ords y)).
    + reflexivity.
    + rewrite IH. apply perm_swap.
Qed.

Lemma sort_perm (l : list nat) : Permutation (sort ords l) l.
Proof.
  induction l as [|x l IH]; simpl.
  - constructor.
  - rewrite insert_perm. now constructor.
Qed.

Lemma key_eqb_eq (a b : key) : key_eqb a b = true <-> a = b.
Proof.
  unfold key_eqb. destruct (key_eq_dec a b); split; congruence.
Qed.

Lemma window_frame_In (n i j : nat) :
  In j (window_frame keys ords n i) <-> j < n /\ keys j = keys i.
Proof.
  unfold window_frame. split.
  - intros H. apply (Permutation_in _ (sort_perm _)) in H.
    apply filter_In in H. destruct H as [H1 H2].
    apply in_seq in H1. apply key_eqb_eq in H2. split; [lia | assumption].
  - intros [H1 H2].
    apply (Permutation_in _ (Permutation_sym (sort_perm _))).
    apply filter_In. split.
    + apply in_seq. lia.
    + now apply key_eqb_eq.
Qed.

Lemma window_frame_NoDup (n i : nat) : NoDup (window_frame keys ords n i).
Proof.
  unfold window_frame.
  apply (Permutation_NoDup (Permutation_sym (sort_perm _))).
  apply NoDup_filter, seq_NoDup.
Qed.

Lemma window_frame_own (n i : nat) : i < n -> In i (window_frame keys ords n i).
Proof. intros H. apply window_frame_In. now split. Qed.

(** Rows of one partition have one and the same window. *)
Lemma window_frame_shared (n i j : nat) :
  In j (window_frame keys ords n i) ->
  window_frame keys ords n j = window_frame keys ords n i.
Proof.
  intros H. apply window_frame_In in H. destruct H as [_ H].
  unfold window_frame. now rewrite H.
Qed.

End Windows.

Lemma index_of_nth (i : nat) (l : list nat) :
  In i l -> nth_error l (index_of i l) = Some i.
Proof.
  induction l as [|x l IH]; simpl; [tauto|].
  intros [-> | H].
  - now rewrite Nat.eqb_refl.
  - destruct (Nat.eqb_spec x i) as [-> | _]; [reflexivity | now apply IH].
Qed.

Lemma index_of_unique (i k : nat) (l : list nat) :
  NoDup l -> nth_error l k = Some i -> index_of i l = k.
Proof.
  intros ND. revert k. induction ND as [|x l Hx ND IH]; intros k H.
  - now destruct k.
  - destruct k as [|k]; simpl in *.
    + injection H as ->. now rewrite Nat.eqb_refl.
    + destruct (Nat.eqb_spec x i) as [-> | _].
      * exfalso. apply Hx. eapply nth_error_In; eauto.
      * f_equal. now apply IH.
Qed.

Lemma index_of_lt (i : nat) (l : list nat) : In i l -> index_of i l < length l.
Proof.
  intros H. apply nth_error_Some. now rewrite index_of_nth.
Qed.

(** ** Facts about the validity window *)

Lemma partition_of_own (grain : list string) (tbl : relation) (i : nat) :
  i < length tbl -> In i (partition_of grain tbl i).
Proof. apply window_frame_own. Qed.

Lemma partition_of_shared (grain : list string) (tbl : relation) (i j : nat) :
  In j (partition_of grain tbl i) -> partition_of grain tbl j = partition_of grain tbl i.
Proof. apply window_frame_shared. Qed.

Lemma partition_of_NoDup (grain : list string) (tbl : relation) (i : nat) :
  NoDup (partition_of grain tbl i).
Proof. apply window_frame_NoDup. Qed.

(** Rows of one partition agree on every grain column. *)
Lemma partition_of_grain (grain : list string) (tbl : relation) (i j : nat) :
  In j (partition_of grain tbl i) ->
  j < length tbl /\
  forall c, In c grain -> column (nth j tbl []) c = column (nth i tbl []) c.
Proof.
  intros H. apply window_frame_In in H. destruct H as [Hlt H]. split; [assumption|].
  unfold grain_key in H. rewrite !map_map in H. simpl in H.
  intros c Hc. induction grain as [|g grain IH]; [contradiction|].
  simpl in H. injection H as H1 H2. destruct Hc as [-> | Hc]; auto.
Qed.

(** [LEAD(_record__loaded_at) OVER (PARTITION BY grain ORDER BY
    _record__loaded_at)] is the load timestamp of the following row. *)
Lemma eval_lead (grain : list string) (tbl : relation) (i : nat) :
  eval tbl i (over LEAD [Column load_timestamp] grain) = Some (next_loaded_at grain tbl i).
Proof.
  unfold next_loaded_at, following, partition_of, grain_key, load_key, over.
  cbn [eval].
  destruct (nth_error _ _); reflexivity.
Qed.

Lemma least2_null_r (v : value) : least2 v VNull = v.
Proof. now destruct v. Qed.

(** [LEAST(_record__hash_removed_at, LEAD(...))] *)
Lemma eval_least (grain : list string) (tbl : relation) (i : nat) :
  eval tbl i (Least [Column removal_timestamp; over LEAD [Column load_timestamp] grain])
  = Some (least2 (removed_at tbl i) (next_loaded_at grain tbl i)).
Proof.
  change (eval tbl i (Least [Column removal_timestamp; over LEAD [Column load_timestamp] grain]))
    with (match all_some [eval tbl i (Column removal_timestamp);
                          eval tbl i (over LEAD [Column load_timestamp] grain)] with
          | Some vs => Some (sql_least vs)
          | None => None
          end).
  rewrite eval_lead. simpl. now rewrite least2_null_r.
Qed.

(** Unfolding [eval] one node at a time. *)

Lemma eval_alias (tbl : relation) (i : nat) (a : exp) (n : string) :
  eval tbl i (Alias a n) = eval tbl i a.
Proof. reflexivity. Qed.

Lemma eval_coalesce2 (tbl : relation) (i : nat) (a b : exp) (va vb : value) :
  eval tbl i a = Some va -> eval tbl i b = Some vb ->
  eval tbl i (Coalesce [a; b]) = Some (or_else va vb).
Proof.
  intros Ha Hb.
  change (eval tbl i (Coalesce [a; b]))
    with (match eval tbl i a with
          | Some VNull =>
              match eval tbl i b with
              | Some VNull => Some VNull
              | r => r
              end
          | r => r
          end).
  rewrite Ha, Hb. destruct va; try reflexivity. now destruct vb.
Qed.

Lemma eval_is_null (tbl : relation) (i : nat) (a : exp) (v : value) :
  eval tbl i a = Some v -> eval tbl i (Is a Null) = Some (VBool (is_null v)).
Proof.
  intros H.
  change (eval tbl i (Is a Null))
    with (match eval tbl i a with
          | Some v => Some (VBool (is_null v))
          | None => None
          end).
  now rewrite H.
Qed.

Lemma eval_case_else (tbl : relation) (i : nat) (c t d : exp) (b : bool) :
  eval tbl i c = Some (VBool b) ->
  eval tbl i (Case [(c, t)] (Some d)) = if b then eval tbl i t else eval tbl i d.
Proof.
  intros H.
  change (eval tbl i (Case [(c, t)] (Some d)))
    with (match eval tbl i c with
          | Some (VBool true) => eval tbl i t
          | Some (VBool false) | Some VNull => eval tbl i d
          | _ => None
          end).
  rewrite H. now destruct b.
Qed.

Lemma eval_case (tbl : relation) (i : nat) (c t : exp) (b : bool) :
  eval tbl i c = Some (VBool b) ->
  eval tbl i (Case [(c, t)] None) = if b then eval tbl i t else Some VNull.
Proof.
  intros H.
  change (eval tbl i (Case [(c, t)] None))
    with (match eval tbl i c with
          | Some (VBool true) => eval tbl i t
          | Some (VBool false) | Some VNull => Some VNull
          | _ => None
          end).
  rewrite H. now destruct b.
Qed.

Lemma eval_lag (grain : list string) (tbl : relation) (i : nat) :
  eval tbl i (over LAG [Column load_timestamp] grain) = Some (previous_loaded_at grain tbl i).
Proof.
  unfold previous_loaded_at, preceding, partition_of, grain_key, load_key, over.
  cbn [eval].
  destruct (index_of _ _); [reflexivity|].
  destruct (nth_error _ _); reflexivity.
Qed.

Lemma cast_epoch (tbl : relation) (i : nat) :
  eval tbl i (Cast (LitStr epoch_literal) (DATETIME 6)) = Some (VTs epoch).
Proof. vm_compute. reflexivity. Qed.

Lemma cast_infinite (tbl : relation) (i : nat) :
  eval tbl i (Cast (LitStr infinite_literal) (DATETIME 6)) = Some (VTs infinite).
Proof. vm_compute. reflexivity. Qed.

(** Each derived column has the value the specification words. *)

Lemma eval_valid_from (grain : list string) (tbl : relation) (i : nat) :
  eval tbl i (record_valid_from grain) = Some (valid_from_of grain tbl i).
Proof.
  unfold record_valid_from. rewrite eval_alias.
  apply eval_coalesce2; [apply eval_lag | apply cast_epoch].
Qed.

Lemma eval_valid_to (grain : list string) (tbl : relation) (i : nat) :
  eval tbl i (record_valid_to grain) = Some (valid_to_of grain tbl i).
Proof.
  unfold record_valid_to. rewrite eval_alias.
  apply eval_coalesce2; [apply eval_least | apply cast_infinite].
Qed.

Lemma eval_version (grain : list string) (tbl : relation) (i : nat) :
  eval tbl i (record_version grain) = Some (version_of grain tbl i).
Proof. reflexivity. Qed.

Lemma eval_is_current (grain : list string) (tbl : relation) (i : nat) :
  eval tbl i (record_is_current grain) = Some (is_current_of grain tbl i).
Proof.
  unfold record_is_current. rewrite eval_alias.
  rewrite (eval_case_else _ _ _ _ _ _ (eval_is_null _ _ _ _ (eval_lead grain tbl i))).
  unfold is_current_of. now destruct (is_null _).
Qed.

Lemma eval_updated_at (grain : list string) (tbl : relation) (i : nat) :
  eval tbl i (record_updated_at grain) = Some (updated_at_of grain tbl i).
Proof.
  unfold record_updated_at. rewrite eval_alias.
  apply eval_coalesce2; [apply eval_least | reflexivity].
Qed.

(** The uid, as the validity stage of the assembled query holds it. *)

Lemma reparse_columns (names : list string) :
  map reparse (map Column names) = map Column names.
Proof. induction names as [|n names IH]; simpl; [|rewrite IH]; reflexivity. Qed.

Lemma reparse_uid (grain : list string) :
  reparse (record_uid grain)
  = Alias (ConcatWs (LitStr "|"
                     :: map wrap_with_coalesce (map Column (grain ++ [load_timestamp])))
                    true)
          "_record__uid".
Proof.
  unfold record_uid. cbn [reparse map].
  rewrite !map_app, reparse_columns. reflexivity.
Qed.

Lemma eval_wrapped_columns (tbl : relation) (i : nat) (names : list string) :
  all_some (map (eval tbl i) (map wrap_with_coalesce (map Column names)))
  = Some (map (fun c => or_else (column (nth i tbl []) c) (VStr "")) names).
Proof.
  induction names as [|n names IH]; [reflexivity|].
  cbn [map all_some]. rewrite IH.
  change (eval tbl i (wrap_with_coalesce (Column n)))
    with (eval tbl i (Coalesce [Column n; LitStr ""])).
  rewrite (eval_coalesce2 tbl i (Column n) (LitStr "") (column (nth i tbl []) n) (VStr ""));
    reflexivity.
Qed.

Lemma or_else_empty_text (vs : list value) :
  map text_of (filter (fun v => negb (is_null v)) (map (fun v => or_else v (VStr "")) vs))
  = map text_of vs.
Proof.
  induction vs as [|v vs IH]; [reflexivity|].
  destruct v; simpl; now rewrite IH.
Qed.

Lemma eval_uid (grain : list string) (tbl : relation) (i : nat) :
  eval tbl i (reparse (record_uid grain)) = Some (uid_of grain tbl i).
Proof.
  rewrite reparse_uid, eval_alias.
  change (eval tbl i (ConcatWs (LitStr "|" :: map wrap_with_coalesce
                                 (map Column (grain ++ [load_timestamp]))) true))
    with (match all_some (Some (VStr "|")
                          :: map (eval tbl i)
                               (map wrap_with_coalesce (map Column (grain ++ [load_timestamp]))))
          with
          | Some vs => sql_concat_ws vs
          | None => None
          end).
  cbn [all_some]. rewrite eval_wrapped_columns. unfold sql_concat_ws, uid_of.
  rewrite <- (map_map (fun c => column (nth i tbl []) c) (fun v => or_else v (VStr ""))).
  rewrite or_else_empty_text, map_map. reflexivity.
Qed.

(** ** Facts about running a select *)

Lemma all_some_map {A B} (f : A -> option B) (g : A -> B) (l : list A) :
  (forall x, In x l -> f x = Some (g x)) -> all_some (map f l) = Some (map g l).
Proof.
  induction l as [|x l IH]; intros H; [reflexivity|].
  cbn [map all_some]. rewrite (H x (or_introl eq_refl)), IH; [reflexivity|].
  intros y Hy. apply H. now right.
Qed.

Lemma nth_seq_from {A} (d : A) (pre l : list A) :
  map (fun i => nth i (pre ++ l) d) (seq (length pre) (length l)) = l.
Proof.
  revert pre. induction l as [|x l IH]; intros pre; [reflexivity|].
  cbn [length seq map]. f_equal.
  - rewrite app_nth2, Nat.sub_diag; [reflexivity | lia].
  - specialize (IH (pre ++ [x])%list).
    rewrite <- app_assoc, length_app, Nat.add_1_r in IH. exact IH.
Qed.

Lemma nth_seq {A} (d : A) (l : list A) :
  map (fun i => nth i l d) (seq 0 (length l)) = l.
Proof. exact (nth_seq_from d [] l). Qed.

Lemma keep_all (w : option exp) (tbl : relation) (rows : list nat) :
  (forall i, passes w tbl i = Some true) ->
  keep w tbl rows = Some (map (fun i => nth i tbl []) rows).
Proof.
  intros H. induction rows as [|i rows IH]; [reflexivity|].
  cbn [keep map]. now rewrite H, IH.
Qed.


Lemma always_true_passes (tbl : relation) (i : nat) :
  passes (Some (EQ (LitNum 1) (LitNum 1))) tbl i = Some true.
Proof. reflexivity. Qed.

(** [SELECT * FROM t WHERE 1 = 1] returns every row of [t]. *)
Lemma run_select_everything (t : Table) (tbl : relation) :
  run_select (mkSelect [Star] t (Some (EQ (LitNum 1) (LitNum 1)))) tbl = Some tbl.
Proof.
  unfold run_select. cbn [where_ expressions].
  rewrite (keep_all _ _ _ (always_true_passes tbl)), nth_seq.
  rewrite (all_some_map _ (fun i => nth i tbl [])).
  - now rewrite nth_seq.
  - intros i _. unfold select_row. cbn. now rewrite app_nil_r.
Qed.

Lemma validity_stage_items (grain : list string) :
  expressions (validity_stage grain)
  = [Star; record_valid_from grain; record_valid_to grain; record_version grain;
     record_is_current grain; record_updated_at grain; reparse (record_uid grain)].
Proof.
  unfold validity_stage, reparse_select, build_validity_cte. cbn [expressions map].
  unfold record_valid_from, record_valid_to, record_version, record_is_current,
    record_updated_at, over.
  cbn [reparse map]. now rewrite !reparse_columns.
Qed.

Lemma project_alias (tbl : relation) (i : nat) (e : exp) (n : string) (v : value) :
  alias_of e = Some n -> eval tbl i e = Some v -> project tbl i e = Some [(n, v)].
Proof.
  destruct e; try discriminate. cbn [alias_of]. intros [= ->] H.
  rewrite eval_alias in H. cbn [project]. now rewrite H.
Qed.

Lemma select_validity_row (grain : list string) (tbl : relation) (i : nat) :
  select_row (expressions (validity_stage grain)) tbl i = Some (validity_row grain tbl i).
Proof.
  rewrite validity_stage_items. unfold select_row. cbn [map].
  rewrite (project_alias tbl i (record_valid_from grain) "_record__valid_from" _ eq_refl (eval_valid_from grain tbl i)).
  rewrite (project_alias tbl i (record_valid_to grain) "_record__valid_to" _ eq_refl (eval_valid_to grain tbl i)).
  rewrite (project_alias tbl i (record_version grain) "_record__version" _ eq_refl (eval_version grain tbl i)).
  rewrite (project_alias tbl i (record_is_current grain) "_record__is_current" _ eq_refl (eval_is_current grain tbl i)).
  rewrite (project_alias tbl i (record_updated_at grain) "_record__updated_at" _ eq_refl (eval_updated_at grain tbl i)).
  rewrite (project_alias tbl i (reparse (record_uid grain)) "_record__uid" _
             (f_equal alias_of (reparse_uid grain)) (eval_uid grain tbl i)).
  reflexivity.
Qed.

(** The validity stage returns one row per input row: the input row followed
    by the six derived columns. *)
Lemma run_validity_stage (grain : list string) (tbl : relation) :
  run_select (validity_stage grain) tbl
  = Some (map (validity_row grain tbl) (seq 0 (length tbl))).
Proof.
  unfold run_select.
  assert (W : where_ (validity_stage grain) = None) by reflexivity.
  rewrite W, keep_all by reflexivity. rewrite nth_seq.
  apply all_some_map. intros i _. apply select_validity_row.
Qed.

Lemma nth_error_map_seq {A} (f : nat -> A) (n i : nat) :
  i < n -> nth_error (map f (seq 0 n)) i = Some (f i).
Proof.
  intros H. rewrite nth_error_map, nth_error_seq.
  destruct (Nat.ltb_spec i n); [reflexivity | lia].
Qed.

Lemma validity_output_row (grain : list string) (tbl : relation) (i : nat) :
  i < length tbl ->
  exists out, run_select (validity_stage grain) tbl = Some out
              /\ length out = length tbl
              /\ nth_error out i = Some (validity_row grain tbl i).
Proof.
  intros H. eexists. split; [apply run_validity_stage|]. split.
  - now rewrite length_map, length_seq.
  - now apply nth_error_map_seq.
Qed.

Lemma least2_both_null (a b : value) : least2 a b = VNull <-> a = VNull /\ b = VNull.
Proof.
  split.
  - destruct a, b; simpl; intros H; try (split; congruence);
      match type of H with
      | (if ?c then _ else _) = _ => destruct c; discriminate
      end.
  - now intros [-> ->].
Qed.

Lemma least2_min (a b : Z) : least2 (VTs a) (VTs b) = VTs (Z.min a b).
Proof.
  simpl. destruct (Z.leb_spec a b).
  - now rewrite Z.min_l.
  - now rewrite Z.min_r by lia.
Qed.

(** ** The validity window (section 4.3) *)

(** C3, amended: for every row of the validity-window output, valid_to is
    the earlier of the row's removal timestamp and the load timestamp of the
    row that immediately follows it in its grain partition ordered by load
    timestamp, a NULL one being ignored; the infinite sentinel is produced
    exactly when the row has no removal timestamp and no following load
    timestamp, that is when no row follows or the row that follows has a NULL
    load timestamp.  A last row with a removal timestamp gets its removal
    timestamp. *)
Theorem valid_to_earlier_else_infinite (grain : list string) (tbl : relation) (i : nat) :
  wf_grain grain = true ->
  i < length tbl ->
  (exists out, run_select (validity_stage grain) tbl = Some out
               /\ length out = length tbl
               /\ nth_error out i = Some (validity_row grain tbl i))
  /\ eval tbl i (record_valid_to grain) = Some (valid_to_of grain tbl i)
  /\ nth_error (partition_of grain tbl i) (index_of i (partition_of grain tbl i)) = Some i
  /\ valid_to_of grain tbl i
     = (if is_null (ended_at grain tbl i) then VTs infinite else ended_at grain tbl i)
  /\ (ended_at grain tbl i = VNull
      <-> removed_at tbl i = VNull /\ next_loaded_at grain tbl i = VNull)
  /\ (next_loaded_at grain tbl i = VNull
      <-> following grain tbl i = None
          \/ exists j, following grain tbl i = Some j /\ loaded_at tbl j = VNull)
  /\ (forall a, removed_at tbl i = VTs a -> next_loaded_at grain tbl i = VNull ->
      valid_to_of grain tbl i = VTs a)
  /\ (forall b, removed_at tbl i = VNull -> next_loaded_at grain tbl i = VTs b ->
      valid_to_of grain tbl i = VTs b)
  /\ (forall a b, removed_at tbl i = VTs a -> next_loaded_at grain tbl i = VTs b ->
      valid_to_of grain tbl i = VTs (Z.min a b)).
Proof.
  intros _ Hi.
  split; [now apply validity_output_row|].
  split; [apply eval_valid_to|].
  split; [apply index_of_nth, partition_of_own, Hi|].
  split; [reflexivity|].
  split; [apply least2_both_null|].
  split.
  - unfold next_loaded_at. destruct (following grain tbl i) as [j|].
    + split.
      * intros H. right. now exists j.
      * intros [H | [j' [[= <-] H]]]; [discriminate | exact H].
    + split; [now left | reflexivity].
  - unfold valid_to_of, ended_at. repeat split.
    + intros a -> ->. reflexivity.
    + intros b -> ->. reflexivity.
    + intros a b -> ->. now rewrite least2_min.
Qed.

Lemma valid_to_earlier_else_infinite_witness :
  wf_grain ["id"] = true
  /\ 2 < length Sample.history
  /\ eval Sample.history 2 (record_valid_to ["id"]) = Some (VTs 20).
Proof.
  split; [reflexivity|]. split; [vm_compute; lia|].
  destruct (valid_to_earlier_else_infinite ["id"] Sample.history 2 eq_refl)
    as (_ & H & _); [vm_compute; lia | exact H].
Defined.

(** C3 as stated fails: the first of two rows of one partition that both
    lack a load timestamp has a following row and yet gets the sentinel. *)
Lemma valid_to_infinite_with_following_row :
  ~ (eval Sample.twice_unloaded 0 (record_valid_to ["id"]) = Some (VTs infinite) ->
     removed_at Sample.twice_unloaded 0 = VNull
     /\ following ["id"] Sample.twice_unloaded 0 = None).
Proof.
  intros H. destruct H as [_ H]; [vm_compute; reflexivity | vm_compute in H; discriminate].
Qed.

(** C4, amended: for every grain partition with at least one row in which
    every row but the first in load-timestamp order has a load timestamp,
    exactly one row of the validity-window output has is_current 1, namely
    the row that no row follows, and every other row has is_current 0;
    rows that share a load timestamp do not change this, in whichever order
    they are ranked. *)
Theorem one_current_row_per_partition (grain : list string) (tbl : relation) (i : nat) :
  wf_grain grain = true ->
  i < length tbl ->
  (forall k j, nth_error (partition_of grain tbl i) (S k) = Some j ->
               loaded_at tbl j <> VNull) ->
  exists c,
    last_row (partition_of grain tbl i) = Some c
    /\ following grain tbl c = None
    /\ NoDup (partition_of grain tbl i)
    /\ In i (partition_of grain tbl i)
    /\ forall j, In j (partition_of grain tbl i) ->
         eval tbl j (record_is_current grain)
         = Some (VInt (if (j =? c)%nat then 1 else 0))
         /\ exists out, run_select (validity_stage grain) tbl = Some out
                        /\ nth_error out j = Some (validity_row grain tbl j)
                        /\ is_current_of grain tbl j = VInt (if (j =? c)%nat then 1 else 0).
Proof.
  intros _ Hi Hload.
  set (p := partition_of grain tbl i) in *.
  assert (ND : NoDup p) by apply partition_of_NoDup.
  assert (Own : In i p) by now apply partition_of_own.
  assert (Len : 0 < length p) by (destruct p; [contradiction | simpl; lia]).
  destruct (nth_error p (length p - 1)) as [c|] eqn:Hc;
    [|apply nth_error_None in Hc; lia].
  assert (Inc : In c p) by (eapply nth_error_In; eauto).
  assert (Ic : index_of c p = length p - 1) by now apply index_of_unique.
  assert (Cur : forall j, In j p ->
            is_current_of grain tbl j = VInt (if (j =? c)%nat then 1 else 0)).
  { intros j Hj. unfold is_current_of, next_loaded_at, following.
    rewrite (partition_of_shared grain tbl i j Hj). fold p.
    pose proof (index_of_lt j p Hj) as Lt.
    pose proof (index_of_nth j p Hj) as Nth.
    destruct (nth_error p (S (index_of j p))) as [j'|] eqn:E.
    - assert (loaded_at tbl j' <> VNull) as Hn by (eapply Hload; eauto).
      assert (S (index_of j p) < length p) as Lt' by (apply nth_error_Some; congruence).
      destruct (Nat.eqb_spec j c) as [-> | _]; [lia|].
      destruct (loaded_at tbl j'); [contradiction | reflexivity ..].
    - apply nth_error_None in E.
      assert (index_of j p = length p - 1) as Eq by lia.
      rewrite Eq, Hc in Nth. injection Nth as ->. now rewrite Nat.eqb_refl. }
  exists c. split; [exact Hc|]. split.
  { unfold following. rewrite (partition_of_shared grain tbl i c Inc). fold p.
    rewrite Ic. apply nth_error_None. lia. }
  split; [exact ND|]. split; [exact Own|].
  intros j Hj. split.
  - rewrite eval_is_current. f_equal. now apply Cur.
  - destruct (partition_of_grain grain tbl i j Hj) as [Lt _].
    destruct (validity_output_row grain tbl j Lt) as (out & H1 & _ & H2).
    exists out. split; [exact H1|]. split; [exact H2 | now apply Cur].
Qed.

Lemma one_current_row_per_partition_witness :
  exists c,
    last_row (partition_of ["id"] Sample.history 0) = Some c
    /\ eval Sample.history c (record_is_current ["id"]) = Some (VInt 1).
Proof.
  destruct (one_current_row_per_partition ["id"] Sample.history 0 eq_refl)
    as (c & Hc & _ & _ & _ & H).
  - vm_compute. lia.
  - intros k j. vm_compute.
    destruct k as [|[|[|k]]]; intros [= <-]; discriminate.
  - exists c. split; [exact Hc|].
    destruct (H c) as [E _].
    + unfold last_row in Hc. eapply nth_error_In; eauto.
    + now rewrite Nat.eqb_refl in E.
Defined.

(** C4 as stated fails: two rows of one partition that both lack a load
    timestamp are both flagged current. *)
Lemma two_current_rows_without_load_timestamp :
  ~ (exists c, forall j, In j (partition_of ["id"] Sample.twice_unloaded 0) ->
       (eval Sample.twice_unloaded j (record_is_current ["id"]) = Some (VInt 1) <-> j = c)).
Proof.
  intros [c H].
  assert (H0 : 0 = c) by (apply H; vm_compute; auto).
  assert (H1 : 1 = c) by (apply H; vm_compute; auto).
  congruence.
Qed.

(** ** The hook expressions and the hook projection (sections 4.1, 4.2) *)

Lemma append_assoc (a b c : string) : (a ++ b) ++ c = a ++ b ++ c.
Proof. induction a as [|x a IH]; simpl; [|rewrite IH]; reflexivity. Qed.

Lemma eval_not_is_null (tbl : relation) (i : nat) (a : exp) (v : value) :
  eval tbl i a = Some v ->
  eval tbl i (Not (Is a Null)) = Some (VBool (negb (is_null v))).
Proof.
  intros H.
  change (eval tbl i (Not (Is a Null)))
    with (match eval tbl i (Is a Null) with
          | Some v => sql_not v
          | None => None
          end).
  now rewrite (eval_is_null _ _ _ _ H).
Qed.

Lemma eval_hook_expression (h : HookSpec) (tbl : relation) (i : nat) :
  eval tbl i (hook_expression h)
  = match column (nth i tbl []) (expression h) with
    | VNull => Some VNull
    | v => sql_add (VStr (keyset h ++ "|")) v
    end.
Proof.
  unfold hook_expression. rewrite eval_alias.
  rewrite (eval_case tbl i _ _ _
             (eval_not_is_null tbl i (Column (expression h)) _ eq_refl)).
  change (eval tbl i (Add (LitStr (keyset h ++ "|")) (Column (expression h))))
    with (sql_add (VStr (keyset h ++ "|")) (column (nth i tbl []) (expression h))).
  now destruct (column (nth i tbl []) (expression h)).
Qed.




(** C8, amended: building the hook projection checks no names: for every
    list of hook specs it returns the projection of one column per hook, in
    the order given and under the hook's name, followed by the wildcard, also
    when two hooks have the same name. *)
Theorem hook_projection_keeps_every_hook (source_table : Table) (hooks : list HookSpec) :
  forallb wf_hook hooks = true ->
  expressions (build_hook_cte source_table hooks) = (map hook_expression hooks ++ [Star])%list
  /\ map alias_of (expressions (build_hook_cte source_table hooks))
     = (map (fun h => Some (name h)) hooks ++ [None])%list
  /\ length (expressions (build_hook_cte source_table hooks)) = S (length hooks)
  /\ from_ (build_hook_cte source_table hooks) = source_table
  /\ where_ (build_hook_cte source_table hooks) = None.
Proof.
  intros _. unfold build_hook_cte, build_hooks. cbn [expressions from_ where_].
  split; [reflexivity|]. split.
  - rewrite map_app, map_map. reflexivity.
  - split; [|split; reflexivity].
    rewrite length_app, length_map. simpl. lia.
Qed.

Lemma hook_projection_keeps_every_hook_witness :
  forallb wf_hook Sample.same_name = true
  /\ map alias_of (expressions (build_hook_cte Sample.source Sample.same_name))
     = [Some "h"; Some "h"; None].
Proof.
  split; [reflexivity|].
  destruct (hook_projection_keeps_every_hook Sample.source Sample.same_name eq_refl)
    as (_ & H & _).
  exact H.
Defined.

(** C8 as stated fails: two hooks named [h] give a projection with two
    columns under the alias [h], and the stage runs. *)
Lemma hook_projection_with_equal_aliases :
  exists e1 e2 out,
    expressions (build_hook_cte Sample.source Sample.same_name) = [e1; e2; Star]
    /\ alias_of e1 = Some "h"
    /\ alias_of e2 = Some "h"
    /\ run_select (build_hook_cte Sample.source Sample.same_name)
         [[("id", VStr "1"); ("customer_id", VStr "7")]]
       = Some [out]
    /\ map fst out = ["h"; "h"; "id"; "customer_id"].
Proof.
  do 3 eexists. repeat split; vm_compute; reflexivity.
Qed.

(** ** The assembled query (section 4.4) *)

Lemma build_query_unbounded (source_table : Table) (hooks : list HookSpec)
    (grain : list string) (time_column : string) (start_ts end_ts : option string) :
  truthy start_ts && truthy end_ts = false ->
  build_query source_table hooks grain time_column start_ts end_ts
  = With [("cte__hook", hook_stage source_table hooks);
          ("cte__validity", validity_stage grain)]
         (mkSelect [Star] (mkTable "cte__validity" None None)
                   (Some (EQ (LitNum 1) (LitNum 1)))).
Proof.
  intros H. unfold build_query. now rewrite H.
Qed.

Lemma build_query_bounded (source_table : Table) (hooks : list HookSpec)
    (grain : list string) (time_column s e : string) :
  s <> "" -> e <> "" ->
  build_query source_table hooks grain time_column (Some s) (Some e)
  = With [("cte__hook", hook_stage source_table hooks);
          ("cte__validity", validity_stage grain)]
         (mkSelect [Star] (mkTable "cte__validity" None None)
                   (Some (Between (Column time_column)
                                  (Cast (LitStr s) (DATETIME 6))
                                  (Cast (LitStr e) (DATETIME 6))))).
Proof.
  intros Hs He. unfold build_query.
  destruct s; [congruence|]. destruct e; [congruence|]. reflexivity.
Qed.

Lemma passes_between (tbl : relation) (i : nat) (c s e : string) (x lo hi : Z) :
  column (nth i tbl []) c = VTs x ->
  datetime_of_string s = Some lo ->
  datetime_of_string e = Some hi ->
  passes (Some (Between (Column c) (Cast (LitStr s) (DATETIME 6))
                        (Cast (LitStr e) (DATETIME 6)))) tbl i
  = Some ((lo <=? x)%Z && (x <=? hi)%Z).
Proof.
  intros Hx Hs He. unfold passes.
  change (eval tbl i (Between (Column c) (Cast (LitStr s) (DATETIME 6))
                              (Cast (LitStr e) (DATETIME 6))))
    with (match sql_cast (VStr s) (DATETIME 6), sql_cast (VStr e) (DATETIME 6) with
          | Some lo, Some hi => sql_between (column (nth i tbl []) c) lo hi
          | _, _ => None
          end).
  rewrite Hx. unfold sql_cast. rewrite Hs, He.
  unfold sql_between, sql_le. cbn [same_type rank Nat.eqb value_leb].
  now destruct (lo <=? x)%Z, (x <=? hi)%Z.
Qed.

(** C5, amended: for every call to the assembler, if both start_ts and
    end_ts are supplied and neither is the empty text, the filter of the
    final query keeps the rows whose time_column lies in the closed interval
    from start_ts to end_ts, both read as DATETIME(6); otherwise (a bound
    missing or empty) the filter is the always-true [1 = 1] and every row of
    the validity stage is selected. *)
Theorem time_filter (source_table : Table) (hooks : list HookSpec) (grain : list string)
    (time_column : string) :
  (forall s e,
     s <> "" -> e <> "" ->
     is_identifier time_column = true -> quote_free s = true -> quote_free e = true ->
     let q := build_query source_table hooks grain time_column (Some s) (Some e) in
     from_ (final_select q) = mkTable "cte__validity" None None
     /\ expressions (final_select q) = [Star]
     /\ where_ (final_select q)
        = Some (Between (Column time_column)
                        (Cast (LitStr s) (DATETIME 6)) (Cast (LitStr e) (DATETIME 6)))
     /\ forall tbl i x lo hi,
          column (nth i tbl []) time_column = VTs x ->
          datetime_of_string s = Some lo ->
          datetime_of_string e = Some hi ->
          passes (where_ (final_select q)) tbl i = Some ((lo <=? x)%Z && (x <=? hi)%Z))
  /\ (forall start_ts end_ts,
        start_ts = None \/ start_ts = Some "" \/ end_ts = None \/ end_ts = Some "" ->
        let q := build_query source_table hooks grain time_column start_ts end_ts in
        from_ (final_select q) = mkTable "cte__validity" None None
        /\ where_ (final_select q) = Some (EQ (LitNum 1) (LitNum 1))
        /\ forall tbl, run_select (final_select q) tbl = Some tbl).
Proof.
  split.
  - intros s e Hs He _ _ _ q. subst q. rewrite build_query_bounded by assumption.
    cbn [final_select from_ expressions where_].
    repeat split. intros tbl i x lo hi. apply passes_between.
  - intros start_ts end_ts H q. subst q.
    rewrite build_query_unbounded.
    + cbn [final_select from_ where_]. repeat split.
      intros tbl. apply run_select_everything.
    + destruct H as [-> | [-> | [-> | ->]]]; simpl;
        try reflexivity; apply andb_false_r.
Qed.

Lemma time_filter_witness :
  passes (where_ (final_select
                    (build_query Sample.source Sample.orders_hooks ["_HK__order"]
                                 "_record__loaded_at"
                                 (Some "1970-01-01 00:00:00") (Some "1970-01-01 00:00:00.000020"))))
         Sample.history 2
  = Some true.
Proof.
  destruct (time_filter Sample.source Sample.orders_hooks ["_HK__order"] "_record__loaded_at")
    as [H _].
  assert (Hs : "1970-01-01 00:00:00" <> "") by discriminate.
  assert (He : "1970-01-01 00:00:00.000020" <> "") by discriminate.
  destruct (H _ _ Hs He eq_refl eq_refl eq_refl) as (_ & _ & _ & P).
  exact (P Sample.history 2 10%Z 0%Z 20%Z eq_refl eq_refl eq_refl).
Defined.

(** C5 as stated fails: with the empty text as start_ts and a timestamp as
    end_ts, both bounds are supplied and the filter is [1 = 1]. *)
Lemma empty_bound_is_no_bound :
  ~ where_ (final_select
              (build_query Sample.source Sample.orders_hooks ["_HK__order"]
                           "_record__updated_at" (Some "") (Some "2023-01-02 00:00:00")))
    = Some (Between (Column "_record__updated_at")
                    (Cast (LitStr "") (DATETIME 6))
                    (Cast (LitStr "2023-01-02 00:00:00") (DATETIME 6))).
Proof. intros H. vm_compute in H. discriminate. Qed.

(** ** The manifest compiler (section 4.5) *)

Lemma dict_get_set_same {A} (k : string) (v : A) (d : list (string * A)) :
  dict_get k (dict_set k v d) = Some v.
Proof.
  induction d as [|[k' v'] d IH]; simpl.
  - now rewrite String.eqb_refl.
  - destruct (String.eqb_spec k k') as [<- | N]; simpl.
    + now rewrite String.eqb_refl.
    + destruct (String.eqb_spec k k'); [contradiction | exact IH].
Qed.

Lemma dict_get_set_other {A} (k k' : string) (v : A) (d : list (string * A)) :
  k <> k' -> dict_get k (dict_set k' v d) = dict_get k d.
Proof.
  intros N. induction d as [|[k0 v0] d IH]; simpl.
  - destruct (String.eqb_spec k k'); [contradiction | reflexivity].
  - destruct (String.eqb_spec k' k0) as [<- | N0]; simpl.
    + destruct (String.eqb_spec k k'); [contradiction | reflexivity].
    + destruct (String.eqb_spec k k0); [reflexivity | exact IH].
Qed.

Section CompilerFacts.

Variable build_bridge_query : Manifest -> Table -> result Query.
Variable build_peripheral_query : Table -> list (string * string) -> result Query.
Variable render : option string -> bool -> Query -> result string.
Variable manifest : Manifest.
Variable options : Options.

#[local] Abbreviation table_queries' :=
  (table_queries build_bridge_query build_peripheral_query render manifest options).
#[local] Abbreviation loop' :=
  (build_queries_loop build_bridge_query build_peripheral_query render manifest options).
#[local] Abbreviation returns' :=
  (collaborators_return build_bridge_query build_peripheral_query render manifest options).

(** The callee of the hook call is not a name of [hook]. *)
Lemma hook_query_expr_raises (spec : TableSpec) :
  hook_query_expr spec = Raise (AttributeError "hook_sql.hook" "build_hook_query").
Proof. reflexivity. Qed.

Lemma table_queries_managed (table : string) (spec : TableSpec) :
  is_True (get (managed spec)) = true ->
  table_queries' table spec = Raise (AttributeError "hook_sql.hook" "build_hook_query").
Proof.
  intros H. unfold table_queries. now rewrite H, hook_query_expr_raises.
Qed.

Lemma table_queries_unmanaged (table : string) (spec : TableSpec) (rb rp : rendered) :
  is_True (get (managed spec)) = false ->
  returns' table spec rb rp ->
  table_queries' table spec = Ok (artifact_set options table None rb rp).
Proof.
  intros H (b & p & Hb & Hrb & Hp & Hrp).
  unfold table_queries. rewrite H. cbn [bind].
  rewrite Hb. cbn [bind]. rewrite Hrb. cbn [bind].
  rewrite Hp. cbn [bind]. now rewrite Hrp.
Qed.

Lemma table_queries_returned (table : string) (spec : TableSpec)
    (entry : CompiledArtifactSet) :
  table_queries' table spec = Ok entry ->
  is_True (get (managed spec)) = false
  /\ exists rb rp, returns' table spec rb rp
                   /\ entry = artifact_set options table None rb rp.
Proof.
  unfold table_queries. destruct (is_True (get (managed spec))).
  - rewrite hook_query_expr_raises. discriminate.
  - cbn [bind]. intros H. split; [reflexivity|].
    destruct (build_bridge_query manifest (hook_table options table)) as [b|] eqn:Hb;
      [|discriminate].
    cbn [bind] in H.
    destruct (rendering render options b) as [rb|] eqn:Hrb; [|discriminate].
    cbn [bind] in H.
    destruct (build_peripheral_query (hook_table options table)
                (get_default (columns spec) [])) as [p|] eqn:Hp; [|discriminate].
    cbn [bind] in H.
    destruct (rendering render options p) as [rp|] eqn:Hrp; [|discriminate].
    cbn [bind] in H. injection H as <-.
    exists rb, rp. split; [|reflexivity]. now exists b, p.
Qed.

(** What the loop returns holds, under every table name of the manifest,
    what the loop body returned for it. *)
Lemma loop_returned (items : Manifest) :
  forall acc qs,
    loop' items acc = Ok qs ->
    (forall t spec, In (t, spec) items -> exists entry, table_queries' t spec = Ok entry)
    /\ (forall k, ~ In k (keys items) -> dict_get k qs = dict_get k acc)
    /\ (NoDup (keys items) ->
        forall t spec, In (t, spec) items ->
          exists entry, table_queries' t spec = Ok entry /\ dict_get t qs = Some entry).
Proof.
  induction items as [|[t0 spec0] items IH]; intros acc qs H.
  - injection H as <-. repeat split; intros; try contradiction; reflexivity.
  - cbn [build_queries_loop] in H.
    destruct (table_queries' t0 spec0) as [entry0|] eqn:E0; [|discriminate].
    cbn [bind] in H. destruct (IH _ _ H) as (IH1 & IH2 & IH3).
    split; [|split].
    + intros t spec [[= <- <-] | Hin]; [now exists entry0 | now apply IH1].
    + intros k Hk. cbn [keys map fst In] in Hk.
      rewrite IH2 by (intros F; apply Hk; now right).
      apply dict_get_set_other. intros ->. apply Hk. now left.
    + intros ND t spec Hin. cbn [keys map fst] in ND.
      apply NoDup_cons_iff in ND. destruct ND as [Hfresh ND].
      destruct Hin as [[= <- <-] | Hin].
      * exists entry0. split; [exact E0|].
        rewrite IH2 by exact Hfresh. apply dict_get_set_same.
      * now apply IH3.
Qed.

Lemma loop_returns (items : Manifest) :
  (forall t spec, In (t, spec) items -> exists entry, table_queries' t spec = Ok entry) ->
  forall acc, exists qs, loop' items acc = Ok qs.
Proof.
  induction items as [|[t0 spec0] items IH]; intros H acc.
  - now exists acc.
  - cbn [build_queries_loop].
    destruct (H t0 spec0 (or_introl eq_refl)) as [entry0 E0]. rewrite E0. cbn [bind].
    apply IH. intros t spec Hin. apply (H t spec). now right.
Qed.

Lemma loop_raises (items : Manifest) (t : string) (spec : TableSpec) (e : exn) :
  In (t, spec) items -> table_queries' t spec = Raise e ->
  forall acc, exists e', loop' items acc = Raise e'.
Proof.
  intros Hin He acc.
  destruct (loop' items acc) as [qs|e'] eqn:E; [|now exists e'].
  destruct (loop_returned _ _ _ E) as (H1 & _).
  destruct (H1 t spec Hin) as [entry H]. congruence.
Qed.

End CompilerFacts.

Lemma is_True_exactly (v : option pyval) :
  is_True (get v) = true <-> v = Some (PyBool true).
Proof.
  split.
  - destruct v as [[| [|] | |]|]; simpl; congruence.
  - now intros ->.
Qed.

Lemma is_True_otherwise (v : option pyval) :
  v <> Some (PyBool true) -> is_True (get v) = false.
Proof.
  intros H. destruct (is_True (get v)) eqn:E; [|reflexivity].
  apply is_True_exactly in E. contradiction.
Qed.


(** C9: for every manifest entry with managed false, the compiler's result
    for that table has a hook descriptor with no query and the hook target
    names, and a bridge and a peripheral descriptor whose queries the
    collaborators built from the hook target location
    hook_target_db.hook_target_schema.table_name, the bridge under the table
    name prefixed with [_bridge__] and the peripheral under the table name,
    both in (uss_target_db, uss_target_schema). *)
Theorem unmanaged_entry_artifacts
    (build_bridge_query : Manifest -> Table -> result Query)
    (build_peripheral_query : Table -> list (string * string) -> result Query)
    (render : option string -> bool -> Query -> result string)
    (manifest : Manifest) (options : Options) (t : string) (spec : TableSpec) :
  NoDup (keys manifest) ->
  In (t, spec) manifest ->
  managed spec = Some (PyBool false) ->
  (forall rb rp,
     collaborators_return build_bridge_query build_peripheral_query render manifest options
                          t spec rb rp ->
     table_queries build_bridge_query build_peripheral_query render manifest options t spec
     = Ok (artifact_set options t None rb rp))
  /\ (forall qs,
        build_queries build_bridge_query build_peripheral_query render manifest options
        = Ok qs ->
        exists rb rp,
          collaborators_return build_bridge_query build_peripheral_query render manifest
                               options t spec rb rp
          /\ dict_get t qs = Some (artifact_set options t None rb rp))
  /\ (forall rb rp,
        artifact_set options t None rb rp
        = mkArtifacts
            (mkArtifact (hook_target_db options) (hook_target_schema options) t None)
            (mkArtifact (uss_target_db options) (uss_target_schema options)
                        ("_bridge__" ++ t) (Some rb))
            (mkArtifact (uss_target_db options) (uss_target_schema options) t (Some rp)))
  /\ table_sql (hook_table options t)
     = hook_target_db options ++ "." ++ hook_target_schema options ++ "." ++ t
  /\ ((forall t' spec', In (t', spec') manifest ->
         is_True (get (managed spec')) = false
         /\ exists rb rp,
              collaborators_return build_bridge_query build_peripheral_query render
                                   manifest options t' spec' rb rp) ->
      exists qs,
        build_queries build_bridge_query build_peripheral_query render manifest options
        = Ok qs).
Proof.
  intros ND Hin Hm.
  assert (NT : is_True (get (managed spec)) = false) by now rewrite Hm.
  split; [intros rb rp; now apply table_queries_unmanaged|].
  split.
  { intros qs H. destruct (loop_returned _ _ _ _ _ _ _ _ H) as (_ & _ & H3).
    destruct (H3 ND t spec Hin) as (entry & E & G).
    destruct (table_queries_returned _ _ _ _ _ _ _ _ E) as (_ & rb & rp & R & ->).
    now exists rb, rp. }
  split; [reflexivity|].
  split.
  { unfold table_sql, hook_table. cbn [catalog db this]. now rewrite !append_assoc. }
  intros H. apply loop_returns. intros t' spec' Hin'.
  destruct (H t' spec' Hin') as (NT' & rb & rp & R).
  exists (artifact_set options t' None rb rp). now apply table_queries_unmanaged.
Qed.

Lemma unmanaged_entry_artifacts_witness :
  table_queries Sample.bridge Sample.peripheral Sample.render
                [("northwind__orders", Sample.with_managed (Some (PyBool false)) Sample.orders)]
                default_options
                "northwind__orders" (Sample.with_managed (Some (PyBool false)) Sample.orders)
  = Ok (artifact_set default_options "northwind__orders" None
          (Text "SELECT * FROM silver.hook.northwind__orders")
          (Text "SELECT id, customer_id, order_date, * FROM silver.hook.northwind__orders")).
Proof.
  assert (ND : NoDup (keys [("northwind__orders",
                             Sample.with_managed (Some (PyBool false)) Sample.orders)])).
  { constructor; [intros [] | constructor]. }
  destruct (unmanaged_entry_artifacts Sample.bridge Sample.peripheral Sample.render
              _ default_options "northwind__orders" _ ND (or_introl eq_refl) eq_refl)
    as (H & _).
  apply H. do 2 eexists. repeat split; vm_compute; reflexivity.
Defined.

(** C10: the hook query is asked for exactly when the value under [managed]
    is the boolean True; under every other value (another truthy value, a
    false value, no value) the hook descriptor has no query and the compiler
    raises nothing of its own.  For True the call to the hook builder
    raises, so no hook query is produced. *)
Theorem hook_query_only_for_True
    (build_bridge_query : Manifest -> Table -> result Query)
    (build_peripheral_query : Table -> list (string * string) -> result Query)
    (render : option string -> bool -> Query -> result string)
    (manifest : Manifest) (options : Options) (t : string) (spec : TableSpec) :
  (managed spec <> Some (PyBool true) ->
   (forall rb rp,
      collaborators_return build_bridge_query build_peripheral_query render manifest options
                           t spec rb rp ->
      table_queries build_bridge_query build_peripheral_query render manifest options t spec
      = Ok (artifact_set options t None rb rp))
   /\ forall entry,
        table_queries build_bridge_query build_peripheral_query render manifest options
                      t spec = Ok entry ->
        query (hook entry) = None)
  /\ (managed spec = Some (PyBool true) ->
      table_queries build_bridge_query build_peripheral_query render manifest options t spec
      = Raise (AttributeError "hook_sql.hook" "build_hook_query")
      /\ (In (t, spec) manifest ->
          exists e,
            build_queries build_bridge_query build_peripheral_query render manifest options
            = Raise e)).
Proof.
  split.
  - intros H. apply is_True_otherwise in H. split.
    + intros rb rp. now apply table_queries_unmanaged.
    + intros entry E.
      destruct (table_queries_returned _ _ _ _ _ _ _ _ E) as (_ & rb & rp & _ & ->).
      reflexivity.
  - intros H. apply is_True_exactly in H.
    pose proof (table_queries_managed build_bridge_query build_peripheral_query render
                  manifest options t spec H) as R.
    split; [exact R|].
    intros Hin. eapply loop_raises; eauto.
Qed.

Lemma hook_query_only_for_True_witness :
  table_queries Sample.bridge Sample.peripheral Sample.render
                [("northwind__orders", Sample.orders)] default_options
                "northwind__orders" Sample.orders
  = Raise (AttributeError "hook_sql.hook" "build_hook_query").
Proof.
  destruct (hook_query_only_for_True Sample.bridge Sample.peripheral Sample.render
              [("northwind__orders", Sample.orders)] default_options
              "northwind__orders" Sample.orders) as (_ & H).
  exact (proj1 (H eq_refl)).
Defined.

(** C6, amended: the compiler validates no TableSpec and isolates no
    table.  An entry whose managed value is not True compiles, whenever the
    collaborators return, whether or not it has a table, a schema, a database
    or hooks; and when compiling any one entry raises, the whole call raises
    and no table's artifact set is returned. *)
Theorem no_validation_no_isolation
    (build_bridge_query : Manifest -> Table -> result Query)
    (build_peripheral_query : Table -> list (string * string) -> result Query)
    (render : option string -> bool -> Query -> result string)
    (manifest : Manifest) (options : Options) :
  (forall t database schema table grain columns hooks invalidate_hard_deletes managed rb rp,
     let spec := mkSpec database schema table grain columns hooks
                        invalidate_hard_deletes managed in
     managed <> Some (PyBool true) ->
     collaborators_return build_bridge_query build_peripheral_query render manifest options
                          t spec rb rp ->
     table_queries build_bridge_query build_peripheral_query render manifest options t spec
     = Ok (artifact_set options t None rb rp))
  /\ (forall qs,
        build_queries build_bridge_query build_peripheral_query render manifest options
        = Ok qs ->
        forall t spec, In (t, spec) manifest ->
          exists entry,
            table_queries build_bridge_query build_peripheral_query render manifest options
                          t spec = Ok entry)
  /\ (forall t spec e,
        In (t, spec) manifest ->
        table_queries build_bridge_query build_peripheral_query render manifest options
                      t spec = Raise e ->
        exists e',
          build_queries build_bridge_query build_peripheral_query render manifest options
          = Raise e').
Proof.
  split; [|split].
  - intros t database schema table grain columns hooks ihd managed rb rp spec H R.
    apply table_queries_unmanaged; [|exact R].
    now apply is_True_otherwise.
  - intros qs H t spec Hin.
    destruct (loop_returned _ _ _ _ _ _ _ _ H) as (H1 & _). now apply H1.
  - intros t spec e Hin He. eapply loop_raises; eauto.
Qed.

Lemma no_validation_no_isolation_witness :
  table_queries Sample.bridge Sample.peripheral Sample.render
                [("broken", Sample.bare (Some (PyBool false)))] default_options
                "broken" (Sample.bare (Some (PyBool false)))
  = Ok (artifact_set default_options "broken" None
          (Text "SELECT * FROM silver.hook.broken")
          (Text "SELECT * FROM silver.hook.broken")).
Proof.
  destruct (no_validation_no_isolation Sample.bridge Sample.peripheral Sample.render
              [("broken", Sample.bare (Some (PyBool false)))] default_options) as (H & _).
  apply (H "broken" None None None None None None None (Some (PyBool false))).
  - discriminate.
  - do 2 eexists. repeat split; vm_compute; reflexivity.
Defined.

(** C6 as stated fails: an entry with no table, no schema, no database and
    no hooks compiles without any error, next to a well-formed one. *)
Lemma malformed_entry_compiles :
  ~ (forall qs,
       build_queries Sample.bridge Sample.peripheral Sample.render
                     [("broken", Sample.bare (Some (PyBool false)));
                      ("northwind__orders",
                       Sample.with_managed (Some (PyBool false)) Sample.orders)]
                     default_options = Ok qs ->
       dict_get "broken" qs = None).
Proof.
  intros H. specialize (H _ eq_refl). vm_compute in H. discriminate.
Qed.

(** * Further properties of [hook.py] *)

Import Keys.

(** ** Order inside a partition *)

Section SortedFrames.

Variable ords : nat -> key.

Let le (a b : nat) : Prop := key_leb (ords a) (ords b) = true.

Hypothesis le_total : forall a b, le a b \/ le b a.
Hypothesis le_trans : forall a b c, le a b -> le b c -> le a c.

Lemma insert_sorted (x : nat) (l : list nat) :
  StronglySorted le l -> StronglySorted le (insert ords x l).
Proof.
  induction 1 as [|y l SS IH All]; simpl.
  - repeat constructor.
  - destruct (key_leb (ords x) (ords y)) eqn:E.
    + constructor; [now constructor|].
      constructor; [exact E|].
      eapply Forall_impl; [|exact All]. intros z Hz. now apply (le_trans x y z).
    + constructor; [exact IH|].
      apply Forall_forall. intros z Hz.
      apply (Permutation_in _ (insert_perm ords x l)) in Hz.
      destruct Hz as [<- | Hz].
      * destruct (le_total x y) as [H | H]; [unfold le in H; congruence | exact H].
      * rewrite Forall_forall in All. now apply All.
Qed.

Lemma sort_sorted (l : list nat) : StronglySorted le (sort ords l).
Proof.
  induction l as [|x l IH]; simpl; [constructor | now apply insert_sorted].
Qed.

Lemma sorted_positions (l : list nat) (p q a b : nat) :
  StronglySorted le l -> p < q ->
  nth_error l p = Some a -> nth_error l q = Some b -> le a b.
Proof.
  intros SS. revert p q. induction SS as [|y l SS IH All]; intros p q Lt Ha Hb.
  - now destruct p.
  - destruct q as [|q]; [lia|]. simpl in Hb.
    destruct p as [|p]; simpl in Ha.
    + injection Ha as <-. rewrite Forall_forall in All.
      apply All. eapply nth_error_In; eauto.
    + apply (IH p q); [lia | assumption..].
Qed.

End SortedFrames.

Lemma load_key_value (tbl : relation) (j : nat) : load_key tbl j = [Some (loaded_at tbl j)].
Proof. reflexivity. Qed.

Lemma key_leb_single (a b : value) :
  key_leb [Some a] [Some b] = if value_eq_dec a b then true else value_leb a b.
Proof.
  cbn [key_leb]. unfold key_eqb.
  destruct (key_eq_dec [Some a] [Some b]) as [E | N];
    destruct (value_eq_dec a b) as [E' | N']; try reflexivity; congruence.
Qed.

Lemma timestamp_leb_refl (a : value) :
  a = VNull \/ (exists x, a = VTs x) -> value_leb a a = true.
Proof. intros [-> | [x ->]]; simpl; [reflexivity | apply Z.leb_refl]. Qed.

Lemma load_key_leb (tbl : relation) (j k : nat) :
  timestamped tbl ->
  key_leb (load_key tbl j) (load_key tbl k) = value_leb (loaded_at tbl j) (loaded_at tbl k).
Proof.
  intros T. rewrite !load_key_value, key_leb_single.
  destruct (value_eq_dec _ _) as [E | _]; [|reflexivity].
  rewrite E. symmetry. apply timestamp_leb_refl, T.
Qed.

Lemma load_key_total (tbl : relation) (j k : nat) :
  timestamped tbl ->
  key_leb (load_key tbl j) (load_key tbl k) = true
  \/ key_leb (load_key tbl k) (load_key tbl j) = true.
Proof.
  intros T. rewrite !load_key_leb by assumption.
  destruct (T j) as [-> | [a ->]], (T k) as [-> | [b ->]]; simpl; auto.
  destruct (Z.leb_spec a b); [now left|]. right. apply Z.leb_le. lia.
Qed.

Lemma load_key_trans (tbl : relation) (j k l : nat) :
  timestamped tbl ->
  key_leb (load_key tbl j) (load_key tbl k) = true ->
  key_leb (load_key tbl k) (load_key tbl l) = true ->
  key_leb (load_key tbl j) (load_key tbl l) = true.
Proof.
  intros T. rewrite !load_key_leb by assumption.
  destruct (T j) as [-> | [a ->]], (T k) as [-> | [b ->]], (T l) as [-> | [c ->]];
    simpl; try congruence; try reflexivity.
  rewrite !Z.leb_le. lia.
Qed.

(** A partition lists its rows by load timestamp, NULL first. *)
Lemma partition_of_sorted (grain : list string) (tbl : relation) (i p q j k : nat) :
  timestamped tbl -> p < q ->
  nth_error (partition_of grain tbl i) p = Some j ->
  nth_error (partition_of grain tbl i) q = Some k ->
  value_leb (loaded_at tbl j) (loaded_at tbl k) = true.
Proof.
  intros T Lt Hj Hk. rewrite <- load_key_leb by assumption.
  unfold partition_of, window_frame in Hj, Hk.
  eapply (sorted_positions (load_key tbl)); [|exact Lt | exact Hj | exact Hk].
  apply sort_sorted.
  - intros a b. now apply load_key_total.
  - intros a b c. now apply load_key_trans.
Qed.

Lemma version_position (grain : list string) (tbl : relation) (i j : nat) :
  In j (partition_of grain tbl i) ->
  version_of grain tbl j = VInt (Z.of_nat (S (index_of j (partition_of grain tbl i)))).
Proof.
  intros H. unfold version_of. now rewrite (partition_of_shared grain tbl i j H).
Qed.

(** X1: within a grain partition the version follows the load timestamp: a
    row loaded strictly earlier than another has the strictly smaller
    version, and a row without load timestamp ranks before every row with
    one. *)
Theorem version_follows_load_timestamp (grain : list string) (tbl : relation)
    (i j k : nat) (vj vk : Z) :
  wf_grain grain = true ->
  timestamped tbl ->
  In j (partition_of grain tbl i) ->
  In k (partition_of grain tbl i) ->
  eval tbl j (record_version grain) = Some (VInt vj) ->
  eval tbl k (record_version grain) = Some (VInt vk) ->
  (forall a b, loaded_at tbl j = VTs a -> loaded_at tbl k = VTs b ->
               (a < b)%Z -> (vj < vk)%Z)
  /\ (forall b, loaded_at tbl j = VNull -> loaded_at tbl k = VTs b -> (vj < vk)%Z).
Proof.
  intros _ T Hj Hk Ej Ek.
  rewrite eval_version, (version_position grain tbl i j Hj) in Ej.
  rewrite eval_version, (version_position grain tbl i k Hk) in Ek.
  injection Ej as <-. injection Ek as <-.
  set (p := partition_of grain tbl i) in *.
  pose proof (index_of_nth j p Hj) as Nj. pose proof (index_of_nth k p Hk) as Nk.
  assert (Order : forall vj' vk',
            loaded_at tbl j = vj' -> loaded_at tbl k = vk' ->
            value_leb vk' vj' = false -> index_of j p < index_of k p).
  { intros vj' vk' Lj Lk F.
    destruct (Nat.lt_trichotomy (index_of j p) (index_of k p)) as [Lt | [Eq | Gt]].
    - exact Lt.
    - rewrite Eq, Nk in Nj. injection Nj as ->.
      rewrite <- Lj, <- Lk, timestamp_leb_refl in F by apply T. discriminate.
    - pose proof (partition_of_sorted grain tbl i _ _ k j T Gt Nk Nj) as S.
      rewrite Lj, Lk in S. congruence. }
  split.
  - intros a b La Lb Lt.
    assert (index_of j p < index_of k p).
    { apply (Order _ _ La Lb). simpl. apply Z.leb_gt. exact Lt. }
    lia.
  - intros b La Lb.
    assert (index_of j p < index_of k p) by (apply (Order _ _ La Lb); reflexivity).
    lia.
Qed.

Lemma history_timestamped : timestamped Sample.history.
Proof.
  intros j.
  do 4 (destruct j as [|j]; [right; eexists; reflexivity|]).
  left. now destruct j.
Qed.

Lemma version_follows_load_timestamp_witness : (1 < 2)%Z.
Proof.
  destruct (version_follows_load_timestamp ["id"] Sample.history 0 2 3 1 2 eq_refl
              history_timestamped) as [H _].
  - vm_compute. auto.
  - vm_compute. auto.
  - reflexivity.
  - reflexivity.
  - exact (H 10%Z 20%Z eq_refl eq_refl eq_refl).
Defined.

(** X2: within a grain partition the versions are the numbers from 1 to the
    size of the partition, each taken by exactly one row. *)
Theorem version_ranks_partition (grain : list string) (tbl : relation) (i : nat) :
  wf_grain grain = true ->
  i < length tbl ->
  (forall j, In j (partition_of grain tbl i) ->
     exists n, eval tbl j (record_version grain) = Some (VInt (Z.of_nat n))
               /\ 1 <= n <= length (partition_of grain tbl i))
  /\ (forall j k, In j (partition_of grain tbl i) -> In k (partition_of grain tbl i) ->
        eval tbl j (record_version grain) = eval tbl k (record_version grain) -> j = k)
  /\ (forall n, 1 <= n <= length (partition_of grain tbl i) ->
        exists j, In j (partition_of grain tbl i)
                  /\ eval tbl j (record_version grain) = Some (VInt (Z.of_nat n))).
Proof.
  intros _ Hi. set (p := partition_of grain tbl i).
  split; [|split].
  - intros j Hj. exists (S (index_of j p)).
    rewrite eval_version, (version_position grain tbl i j Hj).
    split; [reflexivity|]. pose proof (index_of_lt j p Hj). fold p. lia.
  - intros j k Hj Hk E.
    rewrite !eval_version, (version_position grain tbl i j Hj),
      (version_position grain tbl i k Hk) in E.
    fold p in E.
    assert (E' : Z.of_nat (S (index_of j p)) = Z.of_nat (S (index_of k p))) by congruence.
    apply Nat2Z.inj in E'. injection E' as E'. clear E. rename E' into E.
    pose proof (index_of_nth j p Hj) as Nj. pose proof (index_of_nth k p Hk) as Nk.
    rewrite E in Nj. congruence.
  - intros n Hn. destruct n as [|n]; [lia|].
    destruct (nth_error p n) as [j|] eqn:E; [|apply nth_error_None in E; lia].
    assert (Hj : In j p) by (eapply nth_error_In; eauto).
    exists j. split; [exact Hj|].
    rewrite eval_version, (version_position grain tbl i j Hj). fold p.
    now rewrite (index_of_unique j n p (partition_of_NoDup grain tbl i) E).
Qed.

Lemma version_ranks_partition_witness :
  exists j, In j (partition_of ["id"] Sample.history 0)
            /\ eval Sample.history j (record_version ["id"]) = Some (VInt 3).
Proof.
  destruct (version_ranks_partition ["id"] Sample.history 0 eq_refl) as (_ & _ & H).
  - vm_compute. lia.
  - apply (H 3). vm_compute. lia.
Defined.

(** X3: valid_from is the epoch 1970-01-01 00:00:00 for the first row of a
    grain partition; for every other row it is the load timestamp of the
    immediately preceding row when that row has one, and the epoch when the
    load timestamp of the preceding row is NULL; the row a row precedes is
    the row that follows it. *)
Theorem valid_from_predecessor_else_epoch (grain : list string) (tbl : relation) (i : nat) :
  wf_grain grain = true ->
  i < length tbl ->
  (index_of i (partition_of grain tbl i) = 0 ->
   preceding grain tbl i = None
   /\ eval tbl i (record_valid_from grain) = Some (VTs epoch))
  /\ (index_of i (partition_of grain tbl i) <> 0 ->
      exists j, preceding grain tbl i = Some j)
  /\ (forall j, preceding grain tbl i = Some j ->
        In j (partition_of grain tbl i)
        /\ following grain tbl j = Some i
        /\ (loaded_at tbl j = VNull ->
            eval tbl i (record_valid_from grain) = Some (VTs epoch))
        /\ (loaded_at tbl j <> VNull ->
            eval tbl i (record_valid_from grain) = Some (loaded_at tbl j))
        /\ forall a, loaded_at tbl j = VTs a ->
             eval tbl i (record_valid_from grain) = Some (VTs a)).
Proof.
  intros _ Hi. rewrite eval_valid_from.
  unfold valid_from_of, previous_loaded_at, preceding.
  set (p := partition_of grain tbl i).
  pose proof (index_of_nth i p (partition_of_own grain tbl i Hi)) as Ni.
  pose proof (index_of_lt i p (partition_of_own grain tbl i Hi)) as Li.
  split; [|split].
  - intros ->. split; reflexivity.
  - intros Hn. destruct (index_of i p) as [|k] eqn:E; [congruence|].
    destruct (nth_error p k) as [j|] eqn:Ek; [now exists j|].
    apply nth_error_None in Ek. lia.
  - intros j. destruct (index_of i p) as [|k] eqn:E; [discriminate|].
    intros Hk. rewrite Hk.
    assert (Hj : In j p) by (eapply nth_error_In; eauto).
    split; [exact Hj|]. split; [|split; [|split]].
    + unfold following. rewrite (partition_of_shared grain tbl i j Hj). fold p.
      now rewrite (index_of_unique j k p (partition_of_NoDup grain tbl i) Hk).
    + intros ->. reflexivity.
    + intros Hn. unfold or_else. now destruct (loaded_at tbl j).
    + intros a ->. reflexivity.
Qed.

Lemma valid_from_predecessor_else_epoch_witness :
  eval Sample.history 3 (record_valid_from ["id"]) = Some (VTs 10).
Proof.
  destruct (valid_from_predecessor_else_epoch ["id"] Sample.history 3 eq_refl) as (_ & _ & H).
  - vm_compute. lia.
  - destruct (H 2 eq_refl) as (_ & _ & _ & _ & H'). exact (H' 10%Z eq_refl).
Defined.

Lemma is_current_position (grain : list string) (tbl : relation) (i j : nat) :
  (forall k l, nth_error (partition_of grain tbl i) (S k) = Some l ->
               loaded_at tbl l <> VNull) ->
  In j (partition_of grain tbl i) ->
  is_current_of grain tbl j
  = VInt (if (S (index_of j (partition_of grain tbl i))
              =? length (partition_of grain tbl i))%nat then 1 else 0).
Proof.
  intros Hload Hj. unfold is_current_of, next_loaded_at, following.
  rewrite (partition_of_shared grain tbl i j Hj).
  set (p := partition_of grain tbl i) in *.
  pose proof (index_of_lt j p Hj) as Lt.
  destruct (nth_error p (S (index_of j p))) as [l|] eqn:E.
  - assert (S (index_of j p) < length p) by (apply nth_error_Some; congruence).
    destruct (Nat.eqb_spec (S (index_of j p)) (length p)); [lia|].
    pose proof (Hload _ _ E). now destruct (loaded_at tbl l).
  - apply nth_error_None in E.
    destruct (Nat.eqb_spec (S (index_of j p)) (length p)); [reflexivity | lia].
Qed.

(** X4: in a grain partition in which every row but the first has a load
    timestamp, the current row is the row with the highest version: a row is
    flagged current exactly when its version is the size of the partition. *)
Theorem current_row_has_highest_version (grain : list string) (tbl : relation) (i j : nat) :
  wf_grain grain = true ->
  (forall k l, nth_error (partition_of grain tbl i) (S k) = Some l ->
               loaded_at tbl l <> VNull) ->
  In j (partition_of grain tbl i) ->
  eval tbl j (record_is_current grain) = Some (VInt 1)
  <-> eval tbl j (record_version grain)
      = Some (VInt (Z.of_nat (length (partition_of grain tbl i)))).
Proof.
  intros _ Hload Hj.
  rewrite eval_is_current, eval_version, (is_current_position grain tbl i j Hload Hj),
    (version_position grain tbl i j Hj).
  destruct (Nat.eqb_spec (S (index_of j (partition_of grain tbl i)))
                         (length (partition_of grain tbl i))) as [E | N].
  - rewrite E. tauto.
  - split; [discriminate|].
    intros H.
    assert (H' : Z.of_nat (S (index_of j (partition_of grain tbl i)))
                 = Z.of_nat (length (partition_of grain tbl i))) by congruence.
    apply Nat2Z.inj in H'. contradiction.
Qed.

Lemma current_row_has_highest_version_witness :
  eval Sample.history 0 (record_is_current ["id"]) = Some (VInt 1).
Proof.
  apply (current_row_has_highest_version ["id"] Sample.history 0 0 eq_refl).
  - intros k l. vm_compute.
    destruct k as [|[|[|k]]]; intros [= <-]; discriminate.
  - vm_compute. auto.
  - reflexivity.
Defined.

(** X5: updated_at is the same instant as valid_to on every row that has a
    removal timestamp or a following load timestamp, and the row's own load
    timestamp on a row that has neither, where valid_to is the infinite
    sentinel. *)
Theorem updated_at_end_else_load (grain : list string) (tbl : relation) (i : nat) :
  wf_grain grain = true ->
  i < length tbl ->
  (removed_at tbl i <> VNull \/ next_loaded_at grain tbl i <> VNull ->
   eval tbl i (record_updated_at grain) = eval tbl i (record_valid_to grain))
  /\ (removed_at tbl i = VNull -> next_loaded_at grain tbl i = VNull ->
      eval tbl i (record_updated_at grain) = Some (loaded_at tbl i)
      /\ eval tbl i (record_valid_to grain) = Some (VTs infinite)).
Proof.
  intros _ _. rewrite eval_updated_at, eval_valid_to.
  unfold updated_at_of, valid_to_of, or_else.
  split.
  - intros H. destruct (ended_at grain tbl i) eqn:E; try reflexivity.
    apply least2_both_null in E. destruct E. tauto.
  - intros Hr Hn. unfold ended_at. rewrite Hr, Hn. split; reflexivity.
Qed.

Lemma updated_at_end_else_load_witness :
  eval Sample.history 0 (record_updated_at ["id"]) = Some (VTs 30).
Proof.
  destruct (updated_at_end_else_load ["id"] Sample.history 0 eq_refl) as (_ & H).
  - vm_compute. lia.
  - exact (proj1 (H eq_refl eq_refl)).
Defined.



(** ** The hook stage and the assembled query, run *)













(** ** Hook keys *)

Lemma eval_hook_character (h : HookSpec) (tbl : relation) (i : nat) (v : string) :
  column (nth i tbl []) (expression h) = VStr v ->
  eval tbl i (hook_expression h) = Some (VStr (keyset h ++ "|" ++ v)).
Proof.
  intros H. rewrite eval_hook_expression, H. simpl. now rewrite append_assoc.
Qed.

(** X9: the separator is not escaped: a hook whose keyset ends in a
    separator and a text gives a value the same key as the hook with the
    shorter keyset gives that text, a separator and the value. *)
Theorem hook_keys_collide (h1 h2 : HookSpec) (k x v : string)
    (tbl1 tbl2 : relation) (i1 i2 : nat) :
  wf_hook h1 = true ->
  wf_hook h2 = true ->
  keyset h1 = k ++ "|" ++ x ->
  keyset h2 = k ->
  column (nth i1 tbl1 []) (expression h1) = VStr v ->
  column (nth i2 tbl2 []) (expression h2) = VStr (x ++ "|" ++ v) ->
  eval tbl1 i1 (hook_expression h1) = eval tbl2 i2 (hook_expression h2).
Proof.
  intros _ _ K1 K2 V1 V2.
  rewrite (eval_hook_character h1 tbl1 i1 v V1), (eval_hook_character h2 tbl2 i2 _ V2).
  rewrite K1, K2. now rewrite !append_assoc.
Qed.

Lemma hook_keys_collide_witness :
  eval [[("id", VStr "7")]] 0 (hook_expression (mkHook "h" "c" "shop|eu" "id"))
  = eval [[("id", VStr "eu|7")]] 0 (hook_expression (mkHook "h" "c" "shop" "id")).
Proof.
  apply (hook_keys_collide _ _ "shop" "eu" "7"); reflexivity.
Defined.

Lemma separated_injective (k1 k2 v1 v2 : string) :
  separator_free k1 = true -> separator_free k2 = true ->
  k1 ++ "|" ++ v1 = k2 ++ "|" ++ v2 -> k1 = k2 /\ v1 = v2.
Proof.
  revert k2. induction k1 as [|c k1 IH]; intros [|d k2] F1 F2 E.
  - simpl in E. injection E as E. now split.
  - simpl in E. injection E as E _. subst d. discriminate.
  - simpl in E. injection E as E _. subst c. discriminate.
  - simpl in E. injection E as -> E.
    unfold separator_free in F1, F2. simpl in F1, F2.
    apply andb_prop in F1. apply andb_prop in F2.
    destruct (IH k2 (proj2 F1) (proj2 F2) E) as [-> ->]. now split.
Qed.

(** X10: hooks whose keysets hold no separator give equal keys only to
    equal values under equal keysets: for such hooks the key determines the
    keyset and the value. *)
Theorem hook_keys_separate (h1 h2 : HookSpec) (v1 v2 : string)
    (tbl1 tbl2 : relation) (i1 i2 : nat) :
  wf_hook h1 = true ->
  wf_hook h2 = true ->
  separator_free (keyset h1) = true ->
  separator_free (keyset h2) = true ->
  column (nth i1 tbl1 []) (expression h1) = VStr v1 ->
  column (nth i2 tbl2 []) (expression h2) = VStr v2 ->
  eval tbl1 i1 (hook_expression h1) = eval tbl2 i2 (hook_expression h2) ->
  keyset h1 = keyset h2 /\ v1 = v2.
Proof.
  intros _ _ F1 F2 V1 V2 E.
  rewrite (eval_hook_character h1 tbl1 i1 v1 V1),
    (eval_hook_character h2 tbl2 i2 v2 V2) in E.
  injection E as E. now apply separated_injective.
Qed.

Lemma hook_keys_separate_witness :
  keyset (mkHook "a" "c" "northwind:order" "id")
  = keyset (mkHook "b" "c" "northwind:order" "id")
  /\ "7" = "7".
Proof.
  apply (hook_keys_separate (mkHook "a" "c" "northwind:order" "id")
                            (mkHook "b" "c" "northwind:order" "id") "7" "7"
                            [[("id", VStr "7")]] [[("id", VStr "7")]] 0 0);
    reflexivity.
Defined.

(** * Properties of the export functions of [core.py] *)

Import Files.

Lemma put_same (fs : filesystem) (p : Path) (n : node) : put fs p n p = Some n.
Proof. unfold put. now destruct (path_eq_dec p p). Qed.

Lemma put_other (fs : filesystem) (p q : Path) (n : node) : q <> p -> put fs p n q = fs q.
Proof. intros H. unfold put. now destruct (path_eq_dec q p). Qed.

Lemma ancestors_self (p : Path) : In p (ancestors p).
Proof. destruct p; simpl; auto. Qed.

Lemma ancestors_parent (a : string) (p q : Path) : In q (ancestors p) -> In q (ancestors (a :: p)).
Proof. intros H. now right. Qed.

Lemma ancestors_length (p q : Path) : In q (ancestors p) -> length q <= length p.
Proof.
  induction p as [|a p IH]; simpl.
  - intros [<- | []]. reflexivity.
  - intros [<- | H]; [reflexivity | specialize (IH H); lia].
Qed.

(** The file system after a call that only makes directories: what was
    there is still there, and what is new is a directory. *)
Definition grown (fs fs' : filesystem) : Prop :=
  forall q, fs' q = fs q \/ (fs q = None /\ fs' q = Some Dir).

Lemma grown_refl (fs : filesystem) : grown fs fs.
Proof. intros q. now left. Qed.

Lemma grown_trans (fs1 fs2 fs3 : filesystem) : grown fs1 fs2 -> grown fs2 fs3 -> grown fs1 fs3.
Proof.
  intros H1 H2 q. destruct (H1 q) as [E1 | [E1 D1]], (H2 q) as [E2 | [E2 D2]].
  - left. congruence.
  - right. split; congruence.
  - right. split; congruence.
  - congruence.
Qed.

Lemma grown_put (fs : filesystem) (p : Path) : fs p = None -> grown fs (put fs p Dir).
Proof.
  intros H q. destruct (path_eq_dec q p) as [-> | N].
  - right. now rewrite put_same.
  - left. now apply put_other.
Qed.

Lemma grown_dir (fs fs' : filesystem) (q : Path) : grown fs fs' -> fs q = Some Dir -> fs' q = Some Dir.
Proof. intros G H. destruct (G q) as [E | [E D]]; congruence. Qed.

Lemma grown_no_file (fs fs' : filesystem) (p : Path) :
  grown fs fs' -> no_file_on fs p -> no_file_on fs' p.
Proof.
  intros G H q c Hq F. destruct (G q) as [E | [E D]]; [|congruence].
  apply (H q c Hq). congruence.
Qed.

Lemma option_node_eq (x y : option node) : x = y \/ x <> y.
Proof.
  destruct x as [[|c]|], y as [[|d]|]; try (right; discriminate); try (now left).
  destruct (string_dec c d) as [-> | N]; [now left | right; congruence].
Qed.

Lemma not_own_ancestor (a : string) (p : Path) : ~ In (a :: p) (ancestors p).
Proof. intros H. apply ancestors_length in H. simpl in H. lia. Qed.

(** [mkdir] on a path with no file in its way makes the path a directory,
    and changes nothing but missing ancestors of the path. *)
Lemma mkdir_makes (p : Path) :
  forall fs, fs [] = Some Dir -> no_file_on fs p ->
    exists fs', mkdir fs p = (fs', Done tt)
                /\ fs' p = Some Dir
                /\ grown fs fs'
                /\ forall r, fs' r <> fs r -> In r (ancestors p).
Proof.
  induction p as [|a parent IH]; intros fs Root NF.
  - exists fs.
    split; [simpl; now rewrite Root|].
    split; [exact Root|]. split; [apply grown_refl | congruence].
  - cbn [mkdir]. destruct (fs (a :: parent)) as [[|c]|] eqn:E.
    + exists fs.
      split; [reflexivity|]. split; [exact E|]. split; [apply grown_refl | congruence].
    + exfalso. apply (NF (a :: parent) c); [apply ancestors_self | exact E].
    + assert (Put : forall fs0, fs0 (a :: parent) = None ->
                forall r, put fs0 (a :: parent) Dir r <> fs0 r -> r = a :: parent).
      { intros fs0 _ r Hr. destruct (path_eq_dec r (a :: parent)) as [-> | N];
          [reflexivity | now rewrite put_other in Hr]. }
      destruct (fs parent) as [[|c]|] eqn:EP.
      * exists (put fs (a :: parent) Dir).
        split; [reflexivity|]. split; [apply put_same|].
        split; [now apply grown_put|].
        intros r Hr. left. symmetry. now apply (Put fs E).
      * exfalso. apply (NF parent c); [right; apply ancestors_self | exact EP].
      * destruct (IH fs Root) as (fs1 & M & D & G & Only).
        { intros q c Hq. apply NF. now right. }
        rewrite M. exists (put fs1 (a :: parent) Dir).
        assert (E1 : fs1 (a :: parent) = None).
        { destruct (option_node_eq (fs1 (a :: parent)) (fs (a :: parent))) as [Eq | Ne];
            [congruence|].
          exfalso. apply (not_own_ancestor a parent). now apply Only. }
        split; [reflexivity|]. split; [apply put_same|].
        split; [apply (grown_trans _ _ _ G); now apply grown_put|].
        intros r Hr. destruct (path_eq_dec r (a :: parent)) as [-> | N]; [now left|].
        rewrite put_other in Hr by assumption. right. now apply Only.
Qed.

(** ** Paths *)

Lemma append_empty_r (s : string) : s ++ "" = s.
Proof. induction s as [|c s IH]; simpl; [|rewrite IH]; reflexivity. Qed.

Lemma segments_plain (s current : string) :
  slash_free s = true -> segments s current = [current ++ s].
Proof.
  revert current. induction s as [|c s IH]; intros current H.
  - simpl. now rewrite append_empty_r.
  - unfold slash_free in H. simpl in H. apply andb_prop in H. destruct H as [Hc Hs].
    cbn [segments]. apply negb_true_iff in Hc. rewrite Hc.
    rewrite (IH _ Hs). now rewrite append_assoc.
Qed.

Lemma leading_slashes_plain (s : string) : slash_free s = true -> leading_slashes s = 0.
Proof.
  destruct s as [|c s]; [reflexivity|]. unfold slash_free. simpl.
  intros H. apply andb_prop in H. destruct H as [H _].
  apply negb_true_iff in H. now rewrite H.
Qed.

(** [p / name] for a name with no slash that is neither empty nor [.]. *)
Lemma joinpath_name (p : Path) (s : string) :
  slash_free s = true -> is_part s = true -> joinpath p s = s :: p.
Proof.
  intros F P. unfold joinpath.
  rewrite (segments_plain s "" F), (leading_slashes_plain s F).
  cbn [append filter]. now rewrite P.
Qed.

Lemma slash_free_app (a b : string) :
  slash_free a = true -> slash_free b = true -> slash_free (a ++ b) = true.
Proof.
  intros Ha Hb. induction a as [|c a IH]; [exact Hb|].
  unfold slash_free in *. simpl in *. apply andb_prop in Ha. destruct Ha as [Hc Ha].
  rewrite Hc. now apply IH.
Qed.

Lemma append_length (a b : string) :
  String.length (a ++ b) = String.length a + String.length b.
Proof. induction a as [|c a IH]; simpl; [|rewrite IH]; reflexivity. Qed.

Lemma sql_name_is_part (t : string) : is_part (t ++ ".sql") = true.
Proof.
  unfold is_part.
  destruct (String.eqb_spec (t ++ ".sql") "") as [E | _].
  { apply (f_equal String.length) in E. rewrite append_length in E. simpl in E. lia. }
  destruct (String.eqb_spec (t ++ ".sql") ".") as [E | _]; [|reflexivity].
  apply (f_equal String.length) in E. rewrite append_length in E. simpl in E. lia.
Qed.

Lemma joinpath_sql (p : Path) (t : string) :
  slash_free t = true -> joinpath p (t ++ ".sql") = (t ++ ".sql") :: p.
Proof.
  intros H. apply joinpath_name; [|apply sql_name_is_part].
  now apply slash_free_app.
Qed.

Lemma append_cancel_r (a b s : string) : a ++ s = b ++ s -> a = b.
Proof.
  revert b. induction a as [|c a IH]; intros [|d b] H.
  - reflexivity.
  - exfalso. apply (f_equal String.length) in H.
    simpl in H. rewrite append_length in H. lia.
  - exfalso. apply (f_equal String.length) in H.
    simpl in H. rewrite append_length in H. lia.
  - simpl in H. injection H as -> H. f_equal. now apply IH.
Qed.

Lemma target_injective (base : Path) (t k t' k' : string) :
  target base t k = target base t' k' -> t = t' /\ k = k'.
Proof.
  unfold target. intros [= H ->]. split; [|reflexivity]. now apply append_cancel_r in H.
Qed.

Lemma target_not_directory (base : Path) (t k k' : string) (q : Path) :
  In q (ancestors (k' :: base)) -> q <> target base t k.
Proof.
  intros H ->. apply ancestors_length in H. unfold target in H. simpl in H. lia.
Qed.

(** ** [create_export_directories] *)

Lemma mkdir_each_makes (dirs : list (string * Path)) :
  forall fs,
    fs [] = Some Dir ->
    (forall k d, In (k, d) dirs -> no_file_on fs d) ->
    exists fs',
      mkdir_each fs dirs = (fs', Done tt)
      /\ (forall k d, In (k, d) dirs -> fs' d = Some Dir)
      /\ grown fs fs'
      /\ forall r, fs' r <> fs r -> exists k d, In (k, d) dirs /\ In r (ancestors d).
Proof.
  induction dirs as [|[k0 d0] dirs IH]; intros fs Root NF.
  - exists fs. split; [reflexivity|]. split; [intros k d []|].
    split; [apply grown_refl | congruence].
  - cbn [mkdir_each].
    destruct (mkdir_makes d0 fs Root (NF k0 d0 (or_introl eq_refl)))
      as (fs1 & M & D & G & Only).
    rewrite M.
    destruct (IH fs1) as (fs2 & M2 & D2 & G2 & Only2).
    { now apply (grown_dir fs fs1). }
    { intros k d H. apply (grown_no_file fs fs1 d G). apply (NF k d). now right. }
    exists fs2. split; [exact M2|]. split; [|split].
    + intros k d [[= <- <-] | H]; [now apply (grown_dir fs1 fs2) | now apply (D2 k d)].
    + now apply (grown_trans fs fs1 fs2).
    + intros r Hr. destruct (option_node_eq (fs2 r) (fs1 r)) as [E | N].
      * exists k0, d0. split; [now left|]. apply Only. congruence.
      * destruct (Only2 r N) as (k & d & H & A). exists k, d. split; [now right | exact A].
Qed.

(** The three directories are made and nothing else changes. *)
Lemma directories_ready (fs : filesystem) (base : Path) :
  fs [] = Some Dir ->
  (forall k, In k kinds -> no_file_on fs (k :: base)) ->
  exists fs',
    create_export_directories fs base = (fs', Done (export_directories base))
    /\ (forall k, In k kinds -> fs' (k :: base) = Some Dir)
    /\ grown fs fs'
    /\ (forall q, fs' q <> fs q -> exists k, In k kinds /\ In q (ancestors (k :: base))).
Proof.
  intros Root NF.
  destruct (mkdir_each_makes (export_directories base) fs Root)
    as (fs' & M & D & G & Only).
  { intros k d [[= <- <-] | [[= <- <-] | [[= <- <-] | []]]]; apply NF; simpl; auto. }
  exists fs'. split; [|split; [|split; [exact G|]]].
  - unfold create_export_directories.
    change (mkdir_each fs _) with (mkdir_each fs (export_directories base)).
    now rewrite M.
  - intros k [<- | [<- | [<- | []]]].
    + apply (D "hook"). simpl. auto.
    + apply (D "uss_bridge"). simpl. auto.
    + apply (D "uss_peripheral"). simpl. auto.
  - intros q Hq. destruct (Only q Hq) as (k & d & H & A).
    destruct H as [[= <- <-] | [[= <- <-] | [[= <- <-] | []]]];
      eexists; (split; [|exact A]); simpl; auto.
Qed.

(** X11: on a file system where no file stands at the base path, above it
    or at one of the three directories, [create_export_directories] returns
    the paths base/hook, base/uss_bridge and base/uss_peripheral and leaves
    all three as directories; it removes and overwrites nothing, makes no
    file, and makes only directories that lie on the way to the three; run
    again, it changes nothing. *)
Theorem export_directories_made (fs : filesystem) (base : Path) :
  fs [] = Some Dir ->
  (forall k, In k kinds -> no_file_on fs (k :: base)) ->
  exists fs',
    create_export_directories fs base = (fs', Done (export_directories base))
    /\ (forall k, In k kinds -> fs' (k :: base) = Some Dir)
    /\ (forall q, fs' q = fs q \/ (fs q = None /\ fs' q = Some Dir))
    /\ (forall q, fs' q <> fs q -> exists k, In k kinds /\ In q (ancestors (k :: base)))
    /\ create_export_directories fs' base = (fs', Done (export_directories base)).
Proof.
  intros Root NF.
  destruct (directories_ready fs base Root NF) as (fs' & C & Dk & G & Only).
  exists fs'. split; [exact C|]. split; [exact Dk|]. split; [exact G|].
  split; [exact Only|].
  unfold create_export_directories.
  change (mkdir_each fs' _) with (mkdir_each fs' (export_directories base)).
  cbn [mkdir_each export_directories].
  assert (Again : forall k, In k kinds -> mkdir fs' (k :: base) = (fs', Done tt)).
  { intros k Hk. cbn [mkdir]. now rewrite (Dk k Hk). }
  rewrite (Again "hook"), (Again "uss_bridge"), (Again "uss_peripheral");
    simpl; auto.
Qed.

Lemma export_directories_made_witness :
  exists fs',
    create_export_directories empty_fs ["export"; "out"] = (fs', Done (export_directories ["export"; "out"]))
    /\ fs' ["hook"; "export"; "out"] = Some Dir.
Proof.
  destruct (export_directories_made empty_fs ["export"; "out"] eq_refl) as (fs' & H & D & _).
  - intros k _ q c _. destruct q; discriminate.
  - exists fs'. split; [exact H|]. apply D. simpl. auto.
Defined.

(** X12: when the base path is a file and nothing lies under it,
    [create_export_directories] raises NotADirectoryError for base/hook and
    leaves the file system as it was. *)
Theorem export_under_a_file_fails (fs : filesystem) (base : Path) (content : string) :
  fs base = Some (File content) ->
  fs ("hook" :: base) = None ->
  create_export_directories fs base
  = (fs, Failed (OSError NotADirectoryError ("hook" :: base))).
Proof.
  intros B H. unfold create_export_directories. cbn [mkdir_each].
  change (joinpath base "hook") with ("hook" :: base).
  cbn [mkdir]. now rewrite H, B.
Qed.

Lemma export_under_a_file_fails_witness :
  create_export_directories (put empty_fs ["out"] (File "text")) ["out"]
  = (put empty_fs ["out"] (File "text"),
     Failed (OSError NotADirectoryError ["hook"; "out"])).
Proof. apply (export_under_a_file_fails _ ["out"] "text"); reflexivity. Defined.

(** ** [export_queries] *)

Section Exporting.

Variable render : option string -> bool -> Query -> result string.
Variable dialect : option string.
Variable identify : bool.
Variable base : Path.

#[local] Abbreviation text_of_query := (query_text render dialect identify).
#[local] Abbreviation export_query' :=
  (export_query render dialect identify (export_directories base)).
#[local] Abbreviation export_table' :=
  (export_table render dialect identify (export_directories base)).
#[local] Abbreviation export_tables' :=
  (export_tables render dialect identify (export_directories base)).

Lemma kind_directory (k : string) :
  In k kinds -> dict_get k (export_directories base) = Some (k :: base).
Proof. intros [<- | [<- | [<- | []]]]; reflexivity. Qed.

Lemma unknown_kind (k : string) :
  ~ In k kinds -> dict_get k (export_directories base) = None.
Proof.
  intros H. unfold export_directories. cbn [dict_get].
  destruct (String.eqb_spec k "hook") as [-> | _]; [exfalso; apply H; simpl; auto|].
  destruct (String.eqb_spec k "uss_bridge") as [-> | _]; [exfalso; apply H; simpl; auto|].
  destruct (String.eqb_spec k "uss_peripheral") as [-> | _];
    [exfalso; apply H; simpl; auto | reflexivity].
Qed.

(** One query written. *)
Lemma export_query_writes (fs : filesystem) (t k : string) (q : rendered) (text : string) :
  (forall k', In k' kinds -> fs (k' :: base) = Some Dir) ->
  slash_free t = true ->
  In k kinds ->
  text_of_query q = Ok text ->
  fs (target base t k) <> Some Dir ->
  export_query' fs t k (Some q) = (put fs (target base t k) (File text), Done tt).
Proof.
  intros D St Hk Hq ND. unfold export_query.
  rewrite Hq, (kind_directory k Hk), (joinpath_sql _ t St).
  fold (target base t k). unfold write_query_file, write_text.
  change (tl (target base t k)) with (k :: base). rewrite (D k Hk).
  destruct (fs (target base t k)) as [[|c]|]; [congruence | reflexivity..].
Qed.

(** The queries of one table. *)
Lemma export_table_run (t : string) (qts : list (string * option rendered)) :
  forall fs,
    (forall k, In k kinds -> fs (k :: base) = Some Dir) ->
    NoDup (keys qts) ->
    (forall k q, In (k, Some q) qts ->
       slash_free t = true /\ In k kinds
       /\ (exists text, text_of_query q = Ok text)
       /\ fs (target base t k) <> Some Dir) ->
    exists fs',
      export_table' fs t qts = (fs', Done tt)
      /\ (forall k q text, In (k, Some q) qts -> text_of_query q = Ok text ->
            fs' (target base t k) = Some (File text))
      /\ (forall p, (forall k q, In (k, Some q) qts -> p <> target base t k) ->
            fs' p = fs p).
Proof.
  induction qts as [|[k0 [q0|]] qts IH]; intros fs D ND Ok.
  - exists fs. split; [reflexivity|]. split; [intros k q text []| reflexivity].
  - cbn [keys map fst] in ND. apply NoDup_cons_iff in ND. destruct ND as [Fresh ND].
    destruct (Ok k0 q0 (or_introl eq_refl)) as (St & Hk & (text0 & Hq) & NDir).
    cbn [export_table]. rewrite (export_query_writes fs t k0 q0 text0 D St Hk Hq NDir).
    set (fs1 := put fs (target base t k0) (File text0)).
    destruct (IH fs1) as (fs' & Run & Back & Frame).
    { intros k Hk'. unfold fs1. rewrite put_other; [now apply D|].
      apply (target_not_directory base t k0 k). apply ancestors_self. }
    { exact ND. }
    { intros k q Hin. destruct (Ok k q (or_intror Hin)) as (S1 & S2 & S3 & S4).
      repeat split; try assumption. unfold fs1.
      destruct (path_eq_dec (target base t k) (target base t k0)) as [E | N].
      - rewrite E, put_same. discriminate.
      - now rewrite put_other. }
    exists fs'. split; [exact Run|]. split.
    + intros k q text [[= <- <-] | Hin] Hq'.
      * rewrite Frame.
        -- unfold fs1. rewrite put_same. congruence.
        -- intros k q Hin E. apply target_injective in E. destruct E as [_ <-].
           apply Fresh. unfold keys. apply (in_map fst) in Hin. exact Hin.
      * now apply (Back k q).
    + intros p Hp. rewrite Frame.
      * unfold fs1. apply put_other. apply (Hp k0 q0). now left.
      * intros k q Hin. apply (Hp k q). now right.
  - cbn [keys map fst] in ND. apply NoDup_cons_iff in ND. destruct ND as [_ ND].
    cbn [export_table export_query].
    destruct (IH fs D ND) as (fs' & Run & Back & Frame).
    { intros k q Hin. apply (Ok k q). now right. }
    exists fs'. split; [exact Run|]. split.
    + intros k q text [[=] | Hin]. now apply (Back k q).
    + intros p Hp. apply Frame. intros k q Hin. apply (Hp k q). now right.
Qed.

(** Every table. *)
Lemma export_tables_run (queries : list (string * list (string * option rendered))) :
  forall fs,
    (forall k, In k kinds -> fs (k :: base) = Some Dir) ->
    well_keyed queries ->
    exportable render dialect identify base fs queries ->
    exists fs',
      export_tables' fs queries = (fs', Done tt)
      /\ (forall t qts k q text,
            In (t, qts) queries -> In (k, Some q) qts -> text_of_query q = Ok text ->
            fs' (target base t k) = Some (File text))
      /\ (forall p,
            (forall t qts k q, In (t, qts) queries -> In (k, Some q) qts ->
                               p <> target base t k) ->
            fs' p = fs p).
Proof.
  induction queries as [|[t0 qts0] queries IH]; intros fs D [ND NDs] Ex.
  - exists fs. split; [reflexivity|].
    split; [intros t qts k q text [] | reflexivity].
  - cbn [keys map fst] in ND. apply NoDup_cons_iff in ND. destruct ND as [Fresh ND].
    cbn [export_tables].
    destruct (export_table_run t0 qts0 fs D (NDs t0 qts0 (or_introl eq_refl)))
      as (fs1 & Run1 & Back1 & Frame1).
    { intros k q Hin. exact (Ex t0 qts0 k q (or_introl eq_refl) Hin). }
    rewrite Run1.
    assert (Other : forall t qts k q k' q',
              In (t, qts) queries -> In (k, Some q) qts -> In (k', Some q') qts0 ->
              target base t k <> target base t0 k').
    { intros t qts k q k' q' Hin _ _ E. apply target_injective in E.
      destruct E as [-> _]. apply Fresh. unfold keys.
      apply (in_map fst) in Hin. exact Hin. }
    destruct (IH fs1) as (fs' & Run & Back & Frame).
    { intros k Hk. rewrite Frame1; [now apply D|].
      intros k' q' _. apply (target_not_directory base t0 k' k). apply ancestors_self. }
    { split; [exact ND|]. intros t qts Hin. apply (NDs t qts). now right. }
    { intros t qts k q Hin Hk.
      destruct (Ex t qts k q (or_intror Hin) Hk) as (S1 & S2 & S3 & S4).
      repeat split; try assumption.
      rewrite Frame1; [exact S4|]. intros k' q' Hin'. now apply (Other t qts k q k' q'). }
    exists fs'. split; [exact Run|]. split.
    + intros t qts k q text [[= <- <-] | Hin] Hk Hq.
      * rewrite Frame; [now apply (Back1 k q)|].
        intros t' qts' k' q' Hin' Hk' E. symmetry in E.
        now apply (Other t' qts' k' q' k q Hin' Hk' Hk).
      * now apply (Back t qts k q).
    + intros p Hp. rewrite Frame.
      * apply Frame1. intros k q Hk. apply (Hp t0 qts0 k q); [now left | exact Hk].
      * intros t qts k q Hin Hk. apply (Hp t qts k q); [now right | exact Hk].
Qed.

End Exporting.

(** X13: when the directories can be made and every query can be written
    (no slash in a table name, one of the three kinds, a text or an
    expression that renders, no directory in the place of a file),
    [export_queries] succeeds and afterwards, for every table and kind with
    a query, the file base/kind/table.sql holds the text of that query: the
    text itself, or the rendering of the expression. *)
Theorem exported_files_read_back
    (render : option string -> bool -> Query -> result string)
    (dialect : option string) (identify : bool) (fs : filesystem)
    (queries : list (string * list (string * option rendered))) (base : Path) :
  fs [] = Some Dir ->
  (forall k, In k kinds -> no_file_on fs (k :: base)) ->
  well_keyed queries ->
  exportable render dialect identify base fs queries ->
  exists fs',
    export_queries render dialect identify fs queries base = (fs', Done tt)
    /\ forall t qts k q text,
         In (t, qts) queries -> In (k, Some q) qts ->
         query_text render dialect identify q = Ok text ->
         fs' (target base t k) = Some (File text).
Proof.
  intros Root NF WK Ex.
  destruct (directories_ready fs base Root NF) as (fs1 & C & D & G & Only).
  unfold export_queries. rewrite C.
  destruct (export_tables_run render dialect identify base queries fs1 D WK)
    as (fs' & Run & Back & _).
  { intros t qts k q Hin Hk. destruct (Ex t qts k q Hin Hk) as (S1 & S2 & S3 & S4).
    repeat split; try assumption.
    destruct (G (target base t k)) as [E | [_ E]]; [congruence|].
    intros _. destruct (option_node_eq (fs1 (target base t k)) (fs (target base t k)))
      as [E' | N].
    - apply S4. congruence.
    - destruct (Only _ N) as (k' & _ & A).
      now apply (target_not_directory base t k k' _ A). }
  exists fs'. split; [exact Run | exact Back].
Qed.

(** X14: an export touches nothing else: after a successful
    [export_queries], every path that is neither the file of a query that was
    written nor one of the three directories or a directory above them holds
    what it held before; in particular no file is written for a table and
    kind whose query is null. *)
Theorem export_touches_nothing_else
    (render : option string -> bool -> Query -> result string)
    (dialect : option string) (identify : bool) (fs : filesystem)
    (queries : list (string * list (string * option rendered))) (base : Path) (p : Path) :
  fs [] = Some Dir ->
  (forall k, In k kinds -> no_file_on fs (k :: base)) ->
  well_keyed queries ->
  exportable render dialect identify base fs queries ->
  (forall t qts k q, In (t, qts) queries -> In (k, Some q) qts -> p <> target base t k) ->
  (forall k, In k kinds -> ~ In p (ancestors (k :: base))) ->
  exists fs',
    export_queries render dialect identify fs queries base = (fs', Done tt)
    /\ fs' p = fs p.
Proof.
  intros Root NF WK Ex Hp Ha.
  destruct (directories_ready fs base Root NF) as (fs1 & C & D & G & Only).
  unfold export_queries. rewrite C.
  destruct (export_tables_run render dialect identify base queries fs1 D WK)
    as (fs' & Run & _ & Frame).
  { intros t qts k q Hin Hk. destruct (Ex t qts k q Hin Hk) as (S1 & S2 & S3 & S4).
    repeat split; try assumption.
    destruct (option_node_eq (fs1 (target base t k)) (fs (target base t k)))
      as [E' | N].
    - congruence.
    - destruct (Only _ N) as (k' & _ & A).
      exfalso. now apply (target_not_directory base t k k' _ A). }
  exists fs'. split; [exact Run|].
  rewrite (Frame p Hp).
  destruct (option_node_eq (fs1 p) (fs p)) as [E | N]; [exact E|].
  destruct (Only p N) as (k & Hk & A). exfalso. now apply (Ha k Hk).
Qed.

(** X15: a query of a kind other than hook, uss_bridge and uss_peripheral
    is not exported: when the first table's first query is of such a kind and
    renders, [export_queries] raises KeyError for that kind, after the three
    directories have been made and before any file is written. *)
Theorem unknown_kind_raises_KeyError
    (render : option string -> bool -> Query -> result string)
    (dialect : option string) (identify : bool) (fs : filesystem) (base : Path)
    (t k : string) (q : rendered) (text : string)
    (rest_types : list (string * option rendered))
    (rest : list (string * list (string * option rendered))) :
  fs [] = Some Dir ->
  (forall k', In k' kinds -> no_file_on fs (k' :: base)) ->
  ~ In k kinds ->
  query_text render dialect identify q = Ok text ->
  exists fs',
    export_queries render dialect identify fs ((t, (k, Some q) :: rest_types) :: rest) base
    = (fs', Failed (PyError (KeyError k)))
    /\ create_export_directories fs base = (fs', Done (export_directories base))
    /\ forall p c, fs' p = Some (File c) -> fs p = Some (File c).
Proof.
  intros Root NF Hk Hq.
  destruct (directories_ready fs base Root NF) as (fs1 & C & _ & G & _).
  exists fs1. split; [|split; [exact C|]].
  - unfold export_queries. rewrite C. cbn [export_tables export_table].
    unfold export_query. now rewrite Hq, (unknown_kind base k Hk).
  - intros p c H. destruct (G p) as [E | [_ E]]; congruence.
Qed.

Lemma empty_fs_no_file (p : Path) : no_file_on empty_fs p.
Proof. intros q c _. destruct q; discriminate. Qed.

Lemma orders_queries_well_keyed : well_keyed Cases.orders_queries.
Proof.
  split.
  - constructor; [intros [] | constructor].
  - intros t qts [[= <- <-] | []].
    repeat constructor; simpl; intuition discriminate.
Qed.

Lemma orders_queries_exportable :
  exportable Sample.render None true ["export"] empty_fs Cases.orders_queries.
Proof.
  intros t qts k q [[= <- <-] | []] Hk.
  destruct Hk as [[=] | [[= <- <-] | [[= <- <-] | []]]];
    (split; [reflexivity|]); (split; [simpl; auto|]);
    (split; [eexists; reflexivity | discriminate]).
Qed.

Lemma exported_files_read_back_witness :
  exists fs',
    export_queries Sample.render None true empty_fs Cases.orders_queries ["export"]
    = (fs', Done tt)
    /\ fs' ["orders.sql"; "uss_bridge"; "export"] = Some (File "SELECT 1")
    /\ fs' ["orders.sql"; "uss_peripheral"; "export"]
       = Some (File "SELECT * FROM bronze.northwind.orders").
Proof.
  destruct (exported_files_read_back Sample.render None true empty_fs
              Cases.orders_queries ["export"] eq_refl
              (fun k _ => empty_fs_no_file _)
              orders_queries_well_keyed orders_queries_exportable) as (fs' & Run & Back).
  exists fs'. split; [exact Run|]. split.
  - eapply (Back "orders" _ "uss_bridge" (Text "SELECT 1") "SELECT 1");
      [left; reflexivity | simpl; auto | reflexivity].
  - eapply (Back "orders" _ "uss_peripheral"
              (Expr (Plain (mkSelect [Star] Sample.source None))));
      [left; reflexivity | simpl; auto | reflexivity].
Defined.

Lemma export_touches_nothing_else_witness :
  exists fs',
    export_queries Sample.render None true empty_fs Cases.orders_queries ["export"]
    = (fs', Done tt)
    /\ fs' ["orders.sql"; "hook"; "export"] = None.
Proof.
  destruct (export_touches_nothing_else Sample.render None true empty_fs
              Cases.orders_queries ["export"] ["orders.sql"; "hook"; "export"] eq_refl
              (fun k _ => empty_fs_no_file _)
              orders_queries_well_keyed orders_queries_exportable) as (fs' & Run & Same).
  - intros t qts k q [[= <- <-] | []] Hk.
    destruct Hk as [[=] | [[= <- <-] | [[= <- <-] | []]]]; discriminate.
  - intros k [<- | [<- | [<- | []]]] H; simpl in H;
      repeat (destruct H as [H | H]; [discriminate|]); exact H.
  - exists fs'. split; [exact Run | exact Same].
Defined.

Lemma unknown_kind_raises_KeyError_witness :
  exists fs',
    export_queries Sample.render None true empty_fs
                   [("orders", [("extra", Some (Text "SELECT 1"))])] ["export"]
    = (fs', Failed (PyError (KeyError "extra")))
    /\ fs' ["hook"; "export"] = Some Dir.
Proof.
  destruct (unknown_kind_raises_KeyError Sample.render None true empty_fs ["export"]
              "orders" "extra" (Text "SELECT 1") "SELECT 1" [] [] eq_refl
              (fun k _ => empty_fs_no_file _)) as (fs' & Run & Made & _).
  - simpl. intuition discriminate.
  - reflexivity.
  - exists fs'. split; [exact Run|].
    destruct (directories_ready empty_fs ["export"] eq_refl
                (fun k _ => empty_fs_no_file _)) as (fs2 & C & D & _).
    rewrite C in Made. injection Made as <-. apply D. simpl. auto.
Defined.

(** * Further properties of [build_queries] *)

Lemma keys_dict_set_fresh {A} (k : string) (v : A) (d : list (string * A)) :
  ~ In k (keys d) -> keys (dict_set k v d) = (keys d ++ [k])%list.
Proof.
  induction d as [|[k' v'] d IH]; intros H; [reflexivity|].
  cbn [dict_set keys map fst app] in *.
  destruct (String.eqb_spec k k') as [-> | N]; [exfalso; apply H; now left|].
  cbn [map fst]. f_equal. apply IH. intros F. apply H. now right.
Qed.

Section CompilerOrder.

Variable build_bridge_query : Manifest -> Table -> result Query.
Variable build_peripheral_query : Table -> list (string * string) -> result Query.
Variable render : option string -> bool -> Query -> result string.
Variable manifest : Manifest.
Variable options : Options.

#[local] Abbreviation table_queries'' :=
  (table_queries build_bridge_query build_peripheral_query render manifest options).
#[local] Abbreviation loop'' :=
  (build_queries_loop build_bridge_query build_peripheral_query render manifest options).

Lemma loop_keys (items : Manifest) :
  forall acc qs,
    NoDup (keys acc ++ keys items) ->
    loop'' items acc = Ok qs ->
    keys qs = (keys acc ++ keys items)%list.
Proof.
  induction items as [|[t spec] items IH]; intros acc qs ND H.
  - injection H as <-. cbn [keys map]. now rewrite app_nil_r.
  - cbn [build_queries_loop] in H.
    destruct (table_queries'' t spec) as [entry|]; [|discriminate].
    cbn [bind] in H. cbn [keys map fst] in ND |- *.
    assert (Fresh : ~ In t (keys acc)).
    { intros F. apply NoDup_remove_2 in ND. apply ND. apply in_or_app. now left. }
    assert (ND' : NoDup (keys (dict_set t entry acc) ++ keys items)).
    { rewrite keys_dict_set_fresh by assumption. rewrite <- app_assoc. exact ND. }
    rewrite (IH _ _ ND' H), keys_dict_set_fresh by assumption.
    now rewrite <- app_assoc.
Qed.

Lemma loop_first_error (before : Manifest) (t : string) (spec : TableSpec)
    (after : Manifest) (e : exn) :
  (forall t' spec', In (t', spec') before ->
     exists entry, table_queries'' t' spec' = Ok entry) ->
  table_queries'' t spec = Raise e ->
  forall acc, loop'' (before ++ (t, spec) :: after)%list acc = Raise e.
Proof.
  induction before as [|[t0 spec0] before IH]; intros Hb He acc.
  - cbn [app build_queries_loop]. now rewrite He.
  - cbn [app build_queries_loop].
    destruct (Hb t0 spec0 (or_introl eq_refl)) as [entry E]. rewrite E. cbn [bind].
    apply IH; [|exact He]. intros t' spec' Hin. apply (Hb t' spec'). now right.
Qed.

End CompilerOrder.

(** X16: the result of [build_queries] has exactly the table names of the
    manifest, in the order of the manifest. *)
Theorem result_keeps_manifest_order
    (build_bridge_query : Manifest -> Table -> result Query)
    (build_peripheral_query : Table -> list (string * string) -> result Query)
    (render : option string -> bool -> Query -> result string)
    (manifest : Manifest) (options : Options) (qs : list (string * CompiledArtifactSet)) :
  NoDup (keys manifest) ->
  build_queries build_bridge_query build_peripheral_query render manifest options = Ok qs ->
  keys qs = keys manifest /\ length qs = length manifest.
Proof.
  intros ND H.
  assert (K : keys qs = keys manifest).
  { exact (loop_keys build_bridge_query build_peripheral_query render manifest options
             manifest [] qs ND H). }
  split; [exact K|].
  apply (f_equal (@length string)) in K. unfold keys in K. now rewrite !length_map in K.
Qed.

Lemma result_keeps_manifest_order_witness :
  exists qs,
    build_queries Sample.bridge Sample.peripheral Sample.render Cases.two_tables
                  default_options = Ok qs
    /\ keys qs = ["northwind__orders"; "northwind__regions"].
Proof.
  destruct (build_queries Sample.bridge Sample.peripheral Sample.render Cases.two_tables
              default_options) as [qs|e] eqn:H; [|vm_compute in H; discriminate].
  exists qs. split; [reflexivity|].
  apply (result_keeps_manifest_order Sample.bridge Sample.peripheral Sample.render
           Cases.two_tables default_options qs); [|exact H].
  repeat constructor; simpl; intuition discriminate.
Defined.

(** X17: [build_queries] stops at the first table that fails: when the
    tables before a table compile and that table raises, the call raises
    that table's exception, whatever tables come after. *)
Theorem first_failing_table_decides
    (build_bridge_query : Manifest -> Table -> result Query)
    (build_peripheral_query : Table -> list (string * string) -> result Query)
    (render : option string -> bool -> Query -> result string)
    (options : Options) (before : Manifest) (t : string) (spec : TableSpec)
    (after : Manifest) (e : exn) :
  (forall t' spec', In (t', spec') before ->
     exists entry,
       table_queries build_bridge_query build_peripheral_query render
                     (before ++ (t, spec) :: after)%list options t' spec' = Ok entry) ->
  table_queries build_bridge_query build_peripheral_query render
                (before ++ (t, spec) :: after)%list options t spec = Raise e ->
  build_queries build_bridge_query build_peripheral_query render
                (before ++ (t, spec) :: after)%list options = Raise e.
Proof.
  intros Hb He. unfold build_queries. now apply loop_first_error.
Qed.

Lemma first_failing_table_decides_witness :
  build_queries Sample.bridge Sample.peripheral Sample.render
                (Cases.two_tables ++ [("northwind__customers", Sample.orders)])%list
                default_options
  = Raise (AttributeError "hook_sql.hook" "build_hook_query").
Proof.
  apply (first_failing_table_decides Sample.bridge Sample.peripheral Sample.render
           default_options Cases.two_tables "northwind__customers" Sample.orders []).
  - intros t' spec' [[= <- <-] | [[= <- <-] | []]]; eexists; vm_compute; reflexivity.
  - reflexivity.
Defined.

(** ** Export after compilation *)

Section AsSql.

Variable build_bridge_query : Manifest -> Table -> result Query.
Variable build_peripheral_query : Table -> list (string * string) -> result Query.
Variable render : option string -> bool -> Query -> result string.
Variable manifest : Manifest.
Variable options : Options.

#[local] Abbreviation as_text := (Cases.with_as_sql true options).
#[local] Abbreviation as_expression := (Cases.with_as_sql false options).

#[local] Abbreviation same_query := (Cases.same_query render options).
#[local] Abbreviation same_queries := (Cases.same_queries render options).
#[local] Abbreviation same_results := (Cases.same_results render options).

Lemma table_queries_both (t : string) (spec : TableSpec) (entry : CompiledArtifactSet) :
  table_queries build_bridge_query build_peripheral_query render manifest as_text t spec
  = Ok entry ->
  exists entry',
    table_queries build_bridge_query build_peripheral_query render manifest as_expression
                  t spec = Ok entry'
    /\ same_queries (query_types_of entry) (query_types_of entry').
Proof.
  intros H.
  destruct (table_queries_returned _ _ _ _ _ _ _ _ H)
    as (NT & rb & rp & (b & p & Hb & Hrb & Hp & Hrp) & ->).
  unfold rendering in Hrb, Hrp. cbn [as_sql Cases.with_as_sql dialect identify] in Hrb, Hrp.
  destruct (render (dialect options) (identify options) b) as [sb|] eqn:Rb; [|discriminate].
  destruct (render (dialect options) (identify options) p) as [sp|] eqn:Rp; [|discriminate].
  cbn [bind] in Hrb, Hrp. injection Hrb as <-. injection Hrp as <-.
  exists (artifact_set as_expression t None (Expr b) (Expr p)). split.
  - apply table_queries_unmanaged; [exact NT|].
    exists b, p. repeat split; assumption.
  - unfold Cases.same_queries, query_types_of. cbn.
    repeat (constructor; [split; [reflexivity|]; constructor; assumption|]).
    constructor.
Qed.

Lemma same_results_set (t : string) (e e' : CompiledArtifactSet)
    (a b : list (string * CompiledArtifactSet)) :
  same_queries (query_types_of e) (query_types_of e') ->
  same_results a b -> same_results (dict_set t e a) (dict_set t e' b).
Proof.
  intros He. induction 1 as [|[k v] [k' v'] a b [Hk Hv] Hab IH]; cbn [dict_set].
  - constructor; [split; [reflexivity | exact He] | constructor].
  - cbn [fst snd] in Hk, Hv. subst k'.
    destruct (String.eqb t k).
    + constructor; [split; [reflexivity | exact He] | exact Hab].
    + constructor; [split; [reflexivity | exact Hv] | exact IH].
Qed.

Lemma loop_both (items : Manifest) :
  forall acc acc' qs,
    same_results acc acc' ->
    build_queries_loop build_bridge_query build_peripheral_query render manifest as_text
                       items acc = Ok qs ->
    exists qs',
      build_queries_loop build_bridge_query build_peripheral_query render manifest
                         as_expression items acc' = Ok qs'
      /\ same_results qs qs'.
Proof.
  induction items as [|[t spec] items IH]; intros acc acc' qs R H.
  - injection H as <-. now exists acc'.
  - cbn [build_queries_loop] in H |- *.
    destruct (table_queries _ _ _ _ as_text t spec) as [entry|] eqn:E; [|discriminate].
    cbn [bind] in H.
    destruct (table_queries_both t spec entry E) as (entry' & E' & S).
    rewrite E'. cbn [bind].
    apply (IH _ _ _ (same_results_set t entry entry' acc acc' S R) H).
Qed.

Lemma export_query_both (directories : list (string * Path)) (fs : filesystem)
    (t k : string) (i i' : option rendered) :
  same_query i i' ->
  export_query render (dialect options) (identify options) directories fs t k i
  = export_query render (dialect options) (identify options) directories fs t k i'.
Proof.
  intros [|s q R]; [reflexivity|]. unfold export_query, query_text. now rewrite R.
Qed.

Lemma export_table_both (directories : list (string * Path)) (t : string)
    (a b : list (string * option rendered)) :
  same_queries a b ->
  forall fs,
    export_table render (dialect options) (identify options) directories fs t a
    = export_table render (dialect options) (identify options) directories fs t b.
Proof.
  induction 1 as [|[k i] [k' i'] a b [Hk Hi] _ IH]; intros fs; [reflexivity|].
  cbn [fst snd] in Hk, Hi. subst k'. cbn [export_table].
  rewrite (export_query_both directories fs t k i i' Hi).
  destruct (export_query _ _ _ directories fs t k i') as [fs' [[]|e]];
    [apply IH | reflexivity].
Qed.

Lemma export_tables_both (directories : list (string * Path))
    (a b : list (string * CompiledArtifactSet)) :
  same_results a b ->
  forall fs,
    export_tables render (dialect options) (identify options) directories fs
                  (map (fun q => (fst q, query_types_of (snd q))) a)
    = export_tables render (dialect options) (identify options) directories fs
                    (map (fun q => (fst q, query_types_of (snd q))) b).
Proof.
  induction 1 as [|[k v] [k' v'] a b [Hk Hv] _ IH]; intros fs; [reflexivity|].
  cbn [fst snd] in Hk, Hv. subst k'. cbn [map fst snd export_tables].
  rewrite (export_table_both directories k _ _ Hv fs).
  destruct (export_table _ _ _ directories fs k (query_types_of v')) as [fs' [[]|e]];
    [apply IH | reflexivity].
Qed.

End AsSql.

(** X18: the exported files do not depend on [as_sql]: when [build_queries]
    returns with as_sql true, it returns with as_sql false too, and the
    export that follows leaves the same file system, and succeeds or raises
    the same exception, in both calls. *)
Theorem exported_files_ignore_as_sql
    (build_bridge_query : Manifest -> Table -> result Query)
    (build_peripheral_query : Table -> list (string * string) -> result Query)
    (render : option string -> bool -> Query -> result string)
    (manifest : Manifest) (options : Options) (path : Path) (fs : filesystem)
    (qs : list (string * CompiledArtifactSet)) :
  build_queries build_bridge_query build_peripheral_query render manifest
                (Cases.with_as_sql true options) = Ok qs ->
  let texts :=
    build_queries_export build_bridge_query build_peripheral_query render manifest
                         (Cases.with_as_sql true options) (Some path) fs in
  let expressions :=
    build_queries_export build_bridge_query build_peripheral_query render manifest
                         (Cases.with_as_sql false options) (Some path) fs in
  fst texts = fst expressions
  /\ (forall e, snd texts = Failed e <-> snd expressions = Failed e)
  /\ (snd texts = Done qs
      <-> exists qs', snd expressions = Done qs'
                      /\ keys qs' = keys qs).
Proof.
  intros H texts expressions. subst texts expressions. unfold build_queries_export.
  rewrite H.
  destruct (loop_both build_bridge_query build_peripheral_query render manifest options
              manifest [] [] qs (Forall2_nil _) H) as (qs' & H' & R).
  unfold build_queries. rewrite H'.
  cbn [dialect identify Cases.with_as_sql].
  unfold export_queries.
  destruct (create_export_directories fs path) as [fs1 [directories|e1]].
  - rewrite (export_tables_both render options directories qs qs' R fs1).
    destruct (export_tables _ _ _ directories fs1 _) as [fs2 [[]|e2]]; cbn [fst snd].
    + split; [reflexivity|]. split; [split; discriminate|].
      split; [|reflexivity]. intros _. exists qs'. split; [reflexivity|].
      clear - R. induction R as [|x y a b [Hk _] _ IH]; [reflexivity|].
      cbn [keys map]. f_equal; [now symmetry | exact IH].
    + split; [reflexivity|]. split; [tauto|].
      split; [discriminate | intros (q & F & _); discriminate].
  - cbn [fst snd]. split; [reflexivity|]. split; [tauto|].
    split; [discriminate | intros (q & F & _); discriminate].
Qed.

Lemma exported_files_ignore_as_sql_witness :
  fst (build_queries_export Sample.bridge Sample.peripheral Sample.render Cases.two_tables
         (Cases.with_as_sql true default_options) (Some ["export"]) empty_fs)
  = fst (build_queries_export Sample.bridge Sample.peripheral Sample.render Cases.two_tables
           (Cases.with_as_sql false default_options) (Some ["export"]) empty_fs).
Proof.
  destruct (build_queries Sample.bridge Sample.peripheral Sample.render Cases.two_tables
              (Cases.with_as_sql true default_options)) as [qs|e] eqn:H;
    [|vm_compute in H; discriminate].
  exact (proj1 (exported_files_ignore_as_sql Sample.bridge Sample.peripheral Sample.render
                  Cases.two_tables default_options ["export"] empty_fs qs H)).
Defined.

(** ** The keywords of build_queries (section 4.5) *)

Import Call.

Lemma unexpected_some (keywords : list string) (k : string) :
  unexpected keywords = Some k -> In k keywords /\ is_parameter k = false.
Proof.
  intros H. apply find_some in H. destruct H as [H1 H2].
  split; [exact H1 | now apply negb_true_iff].
Qed.

Lemma unexpected_none (keywords : list string) :
  unexpected keywords = None <-> forallb is_parameter keywords = true.
Proof.
  unfold unexpected. induction keywords as [|k keywords IH]; cbn [find forallb].
  - tauto.
  - destruct (is_parameter k); cbn [negb andb]; [exact IH | split; discriminate].
Qed.

Lemma unexpected_passed (keywords : list string) (k : string) :
  In k keywords -> is_parameter k = false -> exists k', unexpected keywords = Some k'.
Proof.
  intros Hin Hk. destruct (unexpected keywords) as [k'|] eqn:E; [now exists k'|].
  apply (find_none _ _ E) in Hin. rewrite Hk in Hin. discriminate.
Qed.

(** C1, amended: [build_queries] exposes neither start_ts nor end_ts.  Its
    keyword-only parameters are manifest, hook_target_db, hook_target_schema,
    uss_target_db, uss_target_schema, as_sql, dialect, export_path and
    identify; a call that passes start_ts or end_ts, or any other keyword
    outside these nine, raises TypeError for the first such keyword and
    leaves the file system as it was; a call with keywords among the nine,
    manifest included, is the compiler run on the manifest, the seven options
    and the export path, and on nothing else. *)
Theorem build_queries_takes_no_time_bounds
    (build_bridge_query : Manifest -> Table -> result Query)
    (build_peripheral_query : Table -> list (string * string) -> result Query)
    (render : option string -> bool -> Query -> result string)
    (keywords : list string)
    (manifest : Manifest) (options : Options) (export_path : option Files.Path)
    (fs : filesystem) :
  let called :=
    call_build_queries build_bridge_query build_peripheral_query render
      keywords manifest options export_path fs in
  is_parameter "start_ts" = false
  /\ is_parameter "end_ts" = false
  /\ (forall k, In k keywords -> is_parameter k = false ->
        exists k', In k' keywords /\ is_parameter k' = false
                   /\ unexpected keywords = Some k'
                   /\ called = (fs, Failed (PyError (unexpected_keyword k'))))
  /\ (In "start_ts" keywords \/ In "end_ts" keywords ->
        fst called = fs
        /\ exists msg, snd called = Failed (PyError (TypeError msg)))
  /\ (forallb is_parameter keywords = true ->
        In "manifest" keywords ->
        called = build_queries_export build_bridge_query build_peripheral_query render
                   manifest options export_path fs)
  /\ (forallb is_parameter keywords = true ->
        ~ In "manifest" keywords ->
        called = (fs, Failed (PyError missing_manifest))).
Proof.
  intros called.
  assert (Other : forall k, In k keywords -> is_parameter k = false ->
            exists k', In k' keywords /\ is_parameter k' = false
                       /\ unexpected keywords = Some k'
                       /\ called = (fs, Failed (PyError (unexpected_keyword k')))).
  { intros k Hin Hk. destruct (unexpected_passed keywords k Hin Hk) as [k' E].
    exists k'. destruct (unexpected_some keywords k' E) as [H1 H2].
    split; [exact H1|]. split; [exact H2|]. split; [exact E|].
    unfold called, call_build_queries. now rewrite E. }
  split; [reflexivity|]. split; [reflexivity|]. split; [exact Other|].
  split; [|split].
  - intros [H | H];
      (destruct (Other _ H eq_refl) as (k' & _ & _ & _ & E); rewrite E; cbn [fst snd];
       split; [reflexivity | eexists; reflexivity]).
  - intros Hall Hm. apply unexpected_none in Hall.
    unfold called, call_build_queries. rewrite Hall.
    assert (E : existsb (String.eqb "manifest") keywords = true).
    { apply existsb_exists. exists "manifest". split; [exact Hm | apply String.eqb_refl]. }
    now rewrite E.
  - intros Hall Hm. apply unexpected_none in Hall.
    unfold called, call_build_queries. rewrite Hall.
    destruct (existsb (String.eqb "manifest") keywords) eqn:E; [|reflexivity].
    apply existsb_exists in E. destruct E as (k & Hin & E).
    apply String.eqb_eq in E. subst k. contradiction.
Qed.

Lemma build_queries_takes_no_time_bounds_witness :
  In "start_ts" ["manifest"; "start_ts"; "end_ts"]
  /\ is_parameter "start_ts" = false
  /\ exists k,
       call_build_queries Sample.bridge Sample.peripheral Sample.render
         ["manifest"; "start_ts"; "end_ts"] Cases.two_tables default_options None empty_fs
       = (empty_fs, Failed (PyError (unexpected_keyword k))).
Proof.
  assert (Hin : In "start_ts" ["manifest"; "start_ts"; "end_ts"]) by (simpl; tauto).
  split; [exact Hin|]. split; [reflexivity|].
  destruct (build_queries_takes_no_time_bounds
              Sample.bridge Sample.peripheral Sample.render
              ["manifest"; "start_ts"; "end_ts"] Cases.two_tables default_options None empty_fs)
    as (_ & _ & H & _).
  destruct (H "start_ts" Hin eq_refl) as (k & _ & _ & _ & E).
  exists k. exact E.
Defined.

(** C1 as stated fails: a call of the compiler that passes start_ts and
    end_ts returns no result, where the same call without them returns
    one. *)
Lemma start_ts_is_no_option_of_build_queries :
  ~ (exists qs,
       snd (call_build_queries Sample.bridge Sample.peripheral Sample.render
              ["manifest"; "start_ts"; "end_ts"] Cases.two_tables default_options None
              empty_fs)
       = Done qs)
  /\ exists qs,
       snd (call_build_queries Sample.bridge Sample.peripheral Sample.render
              ["manifest"] Cases.two_tables default_options None empty_fs)
       = Done qs.
Proof.
  split.
  - intros [qs H]. vm_compute in H. discriminate.
  - eexists. vm_compute. reflexivity.
Qed.

(** ** The uid of the assembled query (section 4.3) *)







